(** * CyberShield phish-ml: the URL feature extractor

    A shallow embedding of [URLFeatureExtractor] from
    [phish-ml/feature_extraction.py], with the parts of Python's [str],
    [re] and [urllib.parse] that the extractor calls.

    A Python [str] is modelled as a list of code points below 256 (Rocq's
    [ascii]): the ASCII range and the Latin-1 supplement, with the behaviour
    Python gives them.  Integers are [Z].  A feature vector is a Python
    [dict], modelled as an association list in insertion order. *)

From Stdlib Require Import List Ascii String ZArith Bool Arith Lia.
Import ListNotations.

Local Open Scope char_scope.
Local Open Scope list_scope.

(** ** Python strings *)

Module PyStr.

Definition str := list ascii.

(** A string literal of the source. *)
Definition lit (s : string) : str := list_ascii_of_string s.

Definition code (c : ascii) : N := N_of_ascii c.

Definition in_range (lo hi : N) (c : ascii) : bool :=
  (N.leb lo (code c) && N.leb (code c) hi)%bool.

Definition is_ascii_upper (c : ascii) : bool := in_range 65 90 c.
Definition is_ascii_lower (c : ascii) : bool := in_range 97 122 c.
Definition is_ascii_digit (c : ascii) : bool := in_range 48 57 c.
Definition is_ascii_alpha (c : ascii) : bool :=
  (is_ascii_upper c || is_ascii_lower c)%bool.

(** [c.lower()]: A-Z, and the upper-case letters of Latin-1
    (U+00C0..U+00DE without the multiplication sign U+00D7), move up by 32. *)
Definition lower_char (c : ascii) : ascii :=
  if (is_ascii_upper c
      || (in_range 192 222 c && negb (N.eqb (code c) 215)))%bool
  then ascii_of_N (code c + 32) else c.

(** [s.lower()] *)
Definition lower (s : str) : str := map lower_char s.

(** [c.isdigit()]: 0-9 and the superscripts U+00B2, U+00B3, U+00B9. *)
Definition isdigit (c : ascii) : bool :=
  (is_ascii_digit c
   || N.eqb (code c) 178 || N.eqb (code c) 179 || N.eqb (code c) 185)%bool.

(** [s == t] *)
Fixpoint str_eqb (s t : str) : bool :=
  match s, t with
  | [], [] => true
  | a :: s', b :: t' => (Ascii.eqb a b && str_eqb s' t')%bool
  | _, _ => false
  end.

(** [s.startswith(p)] *)
Fixpoint startswith (s p : str) {struct p} : bool :=
  match p, s with
  | [], _ => true
  | a :: p', b :: s' => (Ascii.eqb a b && startswith s' p')%bool
  | _ :: _, [] => false
  end.

(** [s.endswith(p)] *)
Definition endswith (s p : str) : bool := startswith (rev s) (rev p).

(** [sub in s] *)
Fixpoint str_in (sub s : str) : bool :=
  match s with
  | [] => startswith [] sub
  | _ :: s' => (startswith s sub || str_in sub s')%bool
  end.

(** [c in s] for a single character. *)
Definition char_in (c : ascii) (s : str) : bool := existsb (Ascii.eqb c) s.

(** [s.count(c)] for a single character. *)
Definition count (c : ascii) (s : str) : nat :=
  List.length (filter (Ascii.eqb c) s).

(** [s.find(c, start)], for a single character; [None] stands for -1. *)
Fixpoint find_from (c : ascii) (s : str) (start : nat) : option nat :=
  match s with
  | [] => None
  | a :: s' =>
      match start with
      | S k => option_map S (find_from c s' k)
      | O => if Ascii.eqb a c then Some O
             else option_map S (find_from c s' O)
      end
  end.

Definition find (c : ascii) (s : str) : option nat := find_from c s 0.

(** [s.rfind(c)] *)
Definition rfind (c : ascii) (s : str) : option nat :=
  match find c (rev s) with
  | Some k => Some (List.length s - 1 - k)
  | None => None
  end.

(** [s.replace(old, new)] for a non-empty [old]: occurrences are found from
    the left and do not overlap.  [skip] counts the characters of an
    occurrence that are still to be dropped. *)
Fixpoint replace_aux (old new : str) (skip : nat) (s : str) : str :=
  match s with
  | [] => []
  | c :: s' =>
      match skip with
      | S k => replace_aux old new k s'
      | O => if startswith s old
             then new ++ replace_aux old new (List.length old - 1) s'
             else c :: replace_aux old new 0 s'
      end
  end.

Definition replace (s old new : str) : str := replace_aux old new 0 s.

(** [s.split(sep)] for a non-empty [sep]; [cur] is the piece being read,
    reversed. *)
Fixpoint split_aux (sep : str) (skip : nat) (cur s : str) : list str :=
  match s with
  | [] => [rev cur]
  | c :: s' =>
      match skip with
      | S k => split_aux sep k cur s'
      | O => if startswith s sep
             then rev cur :: split_aux sep (List.length sep - 1) [] s'
             else split_aux sep 0 (c :: cur) s'
      end
  end.

Definition split (s sep : str) : list str := split_aux sep 0 [] s.

(** [s.lstrip(chars)] *)
Fixpoint lstrip (strip : ascii -> bool) (s : str) : str :=
  match s with
  | c :: s' => if strip c then lstrip strip s' else s
  | [] => []
  end.

(** [s.replace(c, "")] for a single character. *)
Definition remove_char (c : ascii) (s : str) : str :=
  filter (fun a => negb (Ascii.eqb a c)) s.

End PyStr.

(** ** Regular expressions ([re])

    The patterns of the extractor use literals, character classes, groups,
    alternation and counted repetition only, so whether a pattern matches is
    a question about its language; it is decided by derivatives. *)

Module Re.
Import PyStr.

Inductive regex : Type :=
| Void                          (* no string *)
| Eps                           (* the empty string *)
| Chr (f : ascii -> bool)       (* one character of a class *)
| Seq (r1 r2 : regex)
| Alt (r1 r2 : regex)
| Star (r : regex).

Fixpoint nullable (r : regex) : bool :=
  match r with
  | Void => false
  | Eps => true
  | Chr _ => false
  | Seq r1 r2 => (nullable r1 && nullable r2)%bool
  | Alt r1 r2 => (nullable r1 || nullable r2)%bool
  | Star _ => true
  end.

Definition mkSeq (r1 r2 : regex) : regex :=
  match r1 with
  | Void => Void
  | Eps => r2
  | _ => Seq r1 r2
  end.

Definition mkAlt (r1 r2 : regex) : regex :=
  match r1, r2 with
  | Void, _ => r2
  | _, Void => r1
  | _, _ => Alt r1 r2
  end.

Fixpoint deriv (c : ascii) (r : regex) : regex :=
  match r with
  | Void => Void
  | Eps => Void
  | Chr f => if f c then Eps else Void
  | Seq r1 r2 =>
      mkAlt (mkSeq (deriv c r1) r2)
            (if nullable r1 then deriv c r2 else Void)
  | Alt r1 r2 => mkAlt (deriv c r1) (deriv c r2)
  | Star r1 => mkSeq (deriv c r1) (Star r1)
  end.

(** Some prefix of [s] is in the language of [r]: [re.match(r, s)] for a
    pattern without [$]. *)
Fixpoint matches_prefix (r : regex) (s : str) : bool :=
  match s with
  | [] => nullable r
  | c :: s' => (nullable r || matches_prefix (deriv c r) s')%bool
  end.

(** [re.match] of a pattern that ends with [$]: the whole of [s] is in the
    language of [r], or all of [s] but a final newline is. *)
Fixpoint matches_dollar (r : regex) (s : str) : bool :=
  match s with
  | [] => nullable r
  | c :: s' =>
      ((nullable r && str_eqb s ["010"]) || matches_dollar (deriv c r) s')%bool
  end.

(** [re.search(r, s)] *)
Fixpoint search (r : regex) (s : str) : bool :=
  match s with
  | [] => nullable r
  | _ :: s' => (matches_prefix r s || search r s')%bool
  end.

(** [re.search(r, s, re.IGNORECASE)] for a pattern written in lower case, on
    the code points below 256 that [str] holds: there, ignoring case is
    matching the lower-cased string.  Beyond them [re.IGNORECASE] also lets
    U+017F match [s], U+212A match [k] and U+0130 and U+0131 match [i]; such
    hosts are outside this model. *)
Definition search_ignorecase (r : regex) (s : str) : bool :=
  search r (lower s).

(** Pattern syntax. *)
Definition chr (c : ascii) : regex := Chr (Ascii.eqb c).        (* c *)
Definition cls (s : string) : regex :=                           (* [...] *)
  Chr (fun c => char_in c (lit s)).
Definition rng (lo hi : ascii) : regex :=                        (* [lo-hi] *)
  Chr (in_range (code lo) (code hi)).
(** [\d] on the code points below 256, where the decimal digits are [0] to
    [9]; beyond them [\d] matches every Unicode decimal digit. *)
Definition digit : regex := Chr is_ascii_digit.
Definition word (s : string) : regex :=                          (* abc *)
  fold_right (fun c r => Seq (chr c) r) Eps (lit s).
Definition seqs (rs : list regex) : regex := fold_right Seq Eps rs.
Definition alts (rs : list regex) : regex := fold_right Alt Void rs.
Fixpoint rep (n : nat) (r : regex) : regex :=                    (* r{n} *)
  match n with
  | O => Eps
  | S k => Seq r (rep k r)
  end.
Fixpoint upto (n : nat) (r : regex) : regex :=                   (* r{0,n} *)
  match n with
  | O => Eps
  | S k => Alt Eps (Seq r (upto k r))
  end.
Definition rep_range (m n : nat) (r : regex) : regex :=          (* r{m,n} *)
  Seq (rep m r) (upto (n - m) r).
Definition rep_min (m : nat) (r : regex) : regex :=              (* r{m,} *)
  Seq (rep m r) (Star r).
Definition plus (r : regex) : regex := rep_min 1 r.              (* r+ *)

(** The language of a pattern. *)
Inductive Lang : regex -> str -> Prop :=
| LEps : Lang Eps []
| LChr (f : ascii -> bool) (c : ascii) : f c = true -> Lang (Chr f) [c]
| LSeq (r1 r2 : regex) (s1 s2 : str) :
    Lang r1 s1 -> Lang r2 s2 -> Lang (Seq r1 r2) (s1 ++ s2)
| LAltL (r1 r2 : regex) (s : str) : Lang r1 s -> Lang (Alt r1 r2) s
| LAltR (r1 r2 : regex) (s : str) : Lang r2 s -> Lang (Alt r1 r2) s
| LStar0 (r : regex) : Lang (Star r) []
| LStarS (r : regex) (s1 s2 : str) :
    Lang r s1 -> Lang (Star r) s2 -> Lang (Star r) (s1 ++ s2).

(** Every string of the language of [r] has a character in [Q]. *)
Fixpoint needs (Q : ascii -> bool) (r : regex) : Prop :=
  match r with
  | Void => True
  | Eps => False
  | Chr f => forall c, f c = true -> Q c = true
  | Seq r1 r2 => needs Q r1 \/ needs Q r2
  | Alt r1 r2 => needs Q r1 /\ needs Q r2
  | Star _ => False
  end.

(** Every character class of [r] lies within [P]. *)
Fixpoint alphabet (P : ascii -> bool) (r : regex) : Prop :=
  match r with
  | Void | Eps => True
  | Chr f => forall c, f c = true -> P c = true
  | Seq r1 r2 | Alt r1 r2 => alphabet P r1 /\ alphabet P r2
  | Star r1 => alphabet P r1
  end.

End Re.

(** ** [urllib.parse.urlparse] (CPython 3.12)

    [ValueError] is the only exception [urlparse] raises on a [str]; it is the
    result [None].  The check of a bracketed host (IPv6 and IPvFuture
    literals, done by the [ipaddress] module) is a parameter.  The NFKC check
    of the authority ([_checknetloc]) cannot fail on code points below 256:
    none of them normalises to a string with one of the characters [/?#@:]. *)

Module UrlParse.
Import PyStr.

Record ParseResult : Type := mkParseResult {
  scheme : str;
  netloc : str;
  path : str;
  params : str;
  query : str;
  fragment : str
}.

Definition scheme_chars (c : ascii) : bool :=
  (is_ascii_alpha c || is_ascii_digit c || char_in c (lit "+-."))%bool.

Definition uses_params : list str :=
  map lit [""; "ftp"; "hdl"; "prospero"; "http"; "imap"; "https"; "shttp";
           "rtsp"; "rtspu"; "sip"; "sips"; "mms"; "sftp"; "tel"]%string.

(** [_WHATWG_C0_CONTROL_OR_SPACE] *)
Definition c0_control_or_space (c : ascii) : bool := N.leb (code c) 32.

(** [_UNSAFE_URL_BYTES_TO_REMOVE]: tab, carriage return, newline. *)
Definition remove_unsafe (url : str) : str :=
  remove_char "010" (remove_char "013" (remove_char "009" url)).

(** [_splitnetloc(url, start)] *)
Definition _splitnetloc (url : str) (start : nat) : str * str :=
  let delim :=
    fold_left
      (fun delim c =>
         match find_from c url start with
         | Some wdelim => Nat.min delim wdelim
         | None => delim
         end)
      (lit "/?#") (List.length url) in
  (skipn start (firstn delim url), skipn delim url).

(** [s.split(c, 1)] when [c in s]: the text before and after the first [c]. *)
Definition split_once (c : ascii) (s : str) : option (str * str) :=
  match find c s with
  | Some i => Some (firstn i s, skipn (S i) s)
  | None => None
  end.

(** [s.partition(c)[2]] and [s.partition(c)[0]] *)
Definition partition_after (c : ascii) (s : str) : str :=
  match split_once c s with Some (_, t) => t | None => [] end.
Definition partition_before (c : ascii) (s : str) : str :=
  match split_once c s with Some (h, _) => h | None => s end.

(** [_splitparams(url)] *)
Definition _splitparams (url : str) : str * str :=
  if char_in "/" url then
    match rfind "/" url with
    | Some j =>
        match find_from ";" url j with
        | Some i => (firstn i url, skipn (S i) url)
        | None => (url, [])
        end
    | None => (url, [])
    end
  else
    match find ";" url with
    | Some i => (firstn i url, skipn (S i) url)
    | None => (url, [])
    end.

Section BracketCheck.

(** [_check_bracketed_host]: [true] when the host between the brackets is
    accepted, [false] when the check raises. *)
Variable check_bracketed_host : str -> bool.

(** [urlsplit(url)]: scheme, netloc, path, query, fragment. *)
Definition urlsplit (url0 : str) : option (str * str * str * str * str) :=
  let url := remove_unsafe (lstrip c0_control_or_space url0) in
  let '(scheme, url) :=
    match find ":" url, url with
    | Some (S i'), c0 :: _ =>
        let i := S i' in
        if (in_range 0 127 c0 && is_ascii_alpha c0
            && forallb scheme_chars (firstn i url))%bool
        then (lower (firstn i url), skipn (S i) url)
        else ([], url)
    | _, _ => ([], url)
    end in
  let '(netloc, url) :=
    if str_eqb (firstn 2 url) (lit "//") then _splitnetloc url 2
    else ([], url) in
  let lb := char_in "[" netloc in
  let rb := char_in "]" netloc in
  if ((lb && negb rb) || (rb && negb lb))%bool then None
  else if (lb && rb
           && negb (check_bracketed_host
                      (partition_before "]" (partition_after "[" netloc))))%bool
  then None
  else
    let '(url, fragment) :=
      match split_once "#" url with Some p => p | None => (url, []) end in
    let '(url, query) :=
      match split_once "?" url with Some p => p | None => (url, []) end in
    Some (scheme, netloc, url, query, fragment).

(** [urlparse(url)] *)
Definition urlparse (url : str) : option ParseResult :=
  match urlsplit url with
  | None => None
  | Some (scheme, netloc, url, query, fragment) =>
      let '(url, params) :=
        if (existsb (str_eqb scheme) uses_params && char_in ";" url)%bool
        then _splitparams url else (url, []) in
      Some (mkParseResult scheme netloc url params query fragment)
  end.

End BracketCheck.

End UrlParse.

(** ** The extractor: [class URLFeatureExtractor] *)

Module Extractor.
Import PyStr.

Local Open Scope Z_scope.

(** A Python value handed to [extract_features]: a [str], or any other
    object, of which the [try] block observes the outcome of its truth test
    only ([None]: the test raises an [Exception]). *)
Inductive pyvalue : Type :=
| PyStr (s : str)
| PyOther (truth : option bool).

(** A feature dictionary, in insertion order. *)
Definition features := list (string * Z).

(** [d[k]] *)
Fixpoint dict_get (d : features) (k : string) : option Z :=
  match d with
  | [] => None
  | (k', v) :: d' => if String.eqb k k' then Some v else dict_get d' k
  end.

(** [d[k] = v] *)
Fixpoint dict_set (d : features) (k : string) (v : Z) : features :=
  match d with
  | [] => [(k, v)]
  | (k', v') :: d' =>
      if String.eqb k k' then (k', v) :: d' else (k', v') :: dict_set d' k v
  end.

(** [list(d.keys())] *)
Definition keys (d : features) : list string := map fst d.

(** Truth value of an [int]. *)
Definition truth (z : Z) : bool := negb (Z.eqb z 0).

Definition len (s : str) : Z := Z.of_nat (List.length s).

(** [__init__]: the registries. *)
Definition suspicious_tlds : list str :=
  map lit [".tk"; ".ml"; ".ga"; ".cf"; ".gq"; ".loan"; ".win"; ".bid"]%string.

Definition brand_keywords : list str :=
  map lit ["paypal"; "amazon"; "microsoft"; "google"; "apple";
           "facebook"; "netflix"; "whatsapp"; "instagram"]%string.

Definition legitimate_domains : list str :=
  map lit
    ["google.com"; "youtube.com"; "gmail.com"; "gstatic.com"; "googleapis.com";
     "microsoft.com"; "live.com"; "outlook.com"; "office.com"; "azure.com";
     "apple.com"; "icloud.com"; "apple.co";
     "amazon.com"; "amazonaws.com"; "aws.amazon.com";
     "facebook.com"; "fb.com"; "fbcdn.net";
     "twitter.com"; "x.com"; "t.co";
     "linkedin.com";
     "instagram.com";
     "netflix.com";
     "paypal.com";
     "stripe.com";
     "whatsapp.com"; "wa.me";
     "slack.com";
     "zoom.us";
     "discord.com";
     "telegram.org";
     "github.com"; "gitlab.com"; "bitbucket.org";
     "stackoverflow.com"; "stackexchange.com";
     "openai.com"; "chatgpt.com"; "chat.openai.com"; "platform.openai.com";
     "api.openai.com"; "auth0.openai.com"; "cdn.openai.com";
     "anthropic.com"; "claude.ai"; "console.anthropic.com";
     "npmjs.com"; "pypi.org";
     "cursor.sh"; "cursor.com";
     "geeksforgeeks.org";
     "w3schools.com";
     "tutorialspoint.com";
     "javatpoint.com";
     "programiz.com";
     "codecademy.com";
     "freecodecamp.org";
     "udemy.com";
     "coursera.org";
     "khanacademy.org";
     "edx.org";
     "leetcode.com";
     "hackerrank.com";
     "datacamp.com";
     "etlab.app";
     "reddit.com"; "redd.it";
     "wikipedia.org"; "wikimedia.org";
     "medium.com";
     "tumblr.com";
     "pinterest.com";
     "tiktok.com";
     "dropbox.com";
     "adobe.com";
     "cloudflare.com";
     "godaddy.com";
     "wordpress.com"; "wordpress.org";
     "blogger.com";
     "notion.so";
     "figma.com";
     "canva.com";
     "wise.com"; "transferwise.com";
     "revolut.com";
     "xe.com"; "oanda.com";
     "payoneer.com";
     "kaggle.com";
     "ftc.gov"; "consumer.ftc.gov";
     "nih.gov"; "cdc.gov"; "irs.gov"; "ssa.gov";
     "usa.gov"; "whitehouse.gov"; "nasa.gov"]%string.

Definition url_shorteners : list str :=
  map lit ["bit.ly"; "tinyurl.com"; "goo.gl"; "t.co"; "ow.ly";
           "short.link"; "is.gd"; "v.gd"; "cutt.ly"; "shorturl.at"]%string.

(** [x in xs] for a set or list of strings. *)
Definition mem (x : str) (xs : list str) : bool := existsb (str_eqb x) xs.

(** [_has_ip_address]: [^(?:\d{1,3}\.){3}\d{1,3}$] *)
Definition ip_pattern : Re.regex :=
  Re.Seq (Re.rep 3 (Re.Seq (Re.rep_range 1 3 Re.digit) (Re.chr ".")))
         (Re.rep_range 1 3 Re.digit).

Definition _has_ip_address (hostname : str) : Z :=
  if Re.matches_dollar ip_pattern hostname then 1 else 0.

(** [_get_default_features] *)
Definition _get_default_features : features :=
  [("url_length", 0); ("num_dots", 0); ("num_hyphens", 0); ("num_digits", 0);
   ("has_at_symbol", 0); ("num_params", 0); ("has_ip", 0); ("is_https", 0);
   ("path_length", 0); ("domain_length", 0); ("has_brand_spoofing", 0);
   ("has_suspicious_tld", 0); ("has_character_substitution", 0);
   ("has_suspicious_keywords", 0); ("is_url_shortener", 0);
   ("excessive_subdomains", 0); ("suspicious_keyword_combo", 0)]%string.

(** [_is_legitimate_domain] *)
Definition _is_legitimate_domain (hostname : str) : Z :=
  let hostname_clean := replace hostname (lit "www.") (lit "") in
  if mem hostname_clean legitimate_domains then 1
  else if existsb
            (fun domain =>
               (str_eqb hostname_clean domain
                || endswith hostname_clean ("." :: domain))%bool)
            legitimate_domains
  then 1
  else 0.

(** [_detect_suspicious_tld] *)
Definition _detect_suspicious_tld (hostname : str) : Z :=
  if existsb (fun tld => endswith hostname tld) suspicious_tlds then 1 else 0.

Definition legitimate_brand_domains : list (str * list str) :=
  map (fun p => (lit (fst p), map lit (snd p)))
    [("paypal", ["paypal.com"]);
     ("amazon", ["amazon.com"; "amazonaws.com"]);
     ("microsoft", ["microsoft.com"; "live.com"; "outlook.com"; "office.com"]);
     ("google", ["google.com"; "gmail.com"; "youtube.com"; "googleapis.com"]);
     ("apple", ["apple.com"; "icloud.com"]);
     ("facebook", ["facebook.com"; "fb.com"]);
     ("netflix", ["netflix.com"]);
     ("whatsapp", ["whatsapp.com"; "wa.me"]);
     ("instagram", ["instagram.com"])]%string.

Fixpoint brand_domains (d : list (str * list str)) (brand : str)
  : option (list str) :=
  match d with
  | [] => None
  | (k, v) :: d' => if str_eqb brand k then Some v else brand_domains d' brand
  end.

Definition suspicious_indicators (brand : str) : list str :=
  [ "-" :: brand;
    brand ++ lit "-";
    brand ++ lit "security";
    brand ++ lit "verify";
    brand ++ lit "suspended";
    brand ++ lit "alert" ].

(** The loop of [_detect_brand_spoofing] over [brand_keywords]. *)
Fixpoint brand_loop (hostname : str) (brands : list str) : Z :=
  match brands with
  | [] => 0
  | brand :: rest =>
      if str_in brand hostname then
        match brand_domains legitimate_brand_domains brand with
        | Some domains =>
            let is_legitimate :=
              existsb
                (fun legit_domain =>
                   (str_eqb hostname legit_domain
                    || endswith hostname ("." :: legit_domain))%bool)
                domains in
            if negb is_legitimate then
              if existsb (fun indicator => str_in indicator hostname)
                         (suspicious_indicators brand)
              then 1
              else if truth (_detect_suspicious_tld hostname) then 1
              else brand_loop hostname rest
            else brand_loop hostname rest
        | None => brand_loop hostname rest
        end
      else brand_loop hostname rest
  end.

(** [_detect_brand_spoofing]; the source does not read [full_url]. *)
Definition _detect_brand_spoofing (hostname full_url : str) : Z :=
  if truth (_is_legitimate_domain hostname) then 0
  else brand_loop hostname brand_keywords.

(** [^(web|app|mail|cdn|api|server|host|node)\d+\.] *)
Definition numeric_prefix_pattern : Re.regex :=
  Re.seqs
    [Re.alts (map Re.word ["web"; "app"; "mail"; "cdn"; "api"; "server";
                           "host"; "node"]%string);
     Re.plus Re.digit;
     Re.chr "."].

Definition suspicious_patterns : list Re.regex :=
  [ (* p[a4@]yp[a4@]l *)
    Re.seqs [Re.chr "p"; Re.cls "a4@"; Re.chr "y"; Re.chr "p"; Re.cls "a4@";
             Re.chr "l"];
    (* g[o0@]{2}gle *)
    Re.seqs [Re.chr "g"; Re.rep 2 (Re.cls "o0@"); Re.word "gle"];
    (* micr[o0]s[o0]ft *)
    Re.seqs [Re.word "micr"; Re.cls "o0"; Re.chr "s"; Re.cls "o0";
             Re.word "ft"];
    (* [a-z]+[0]{2,}[a-z]+ *)
    Re.seqs [Re.plus (Re.rng "a" "z"); Re.rep_min 2 (Re.cls "0");
             Re.plus (Re.rng "a" "z")];
    (* [a-z]+[4]{2,}[a-z]+ *)
    Re.seqs [Re.plus (Re.rng "a" "z"); Re.rep_min 2 (Re.cls "4");
             Re.plus (Re.rng "a" "z")];
    (* fac[e3]b[o0]{2}k *)
    Re.seqs [Re.word "fac"; Re.cls "e3"; Re.chr "b"; Re.rep 2 (Re.cls "o0");
             Re.chr "k"];
    (* n[e3]tfl[i1]x *)
    Re.seqs [Re.chr "n"; Re.cls "e3"; Re.word "tfl"; Re.cls "i1"; Re.chr "x"]
  ].

(** [_detect_character_substitution] *)
Definition _detect_character_substitution (hostname : str) : Z :=
  if truth (_is_legitimate_domain hostname) then 0
  else if Re.matches_prefix numeric_prefix_pattern hostname then 0
  else
    let domain_parts := split hostname (lit ".") in
    if (List.length domain_parts <? 2)%nat then 0
    else
      let main_domain := nth (List.length domain_parts - 2) domain_parts [] in
      if existsb (fun pattern => Re.search_ignorecase pattern main_domain)
                 suspicious_patterns
      then 1 else 0.

Definition domain_suspicious_keywords : list str :=
  map lit ["verify"; "suspended"; "locked"; "urgent"; "alert";
           "warning"; "confirm"; "validate"; "fake"; "deal"]%string.

Definition path_suspicious_keywords : list str :=
  map lit ["suspend"; "locked"; "urgent"; "immediate"]%string.

(** [full_url.split(hostname)[-1] if hostname in full_url else ''] *)
Definition path_after_host (full_url hostname : str) : str :=
  if str_in hostname full_url then last (split full_url hostname) []
  else [].

(** [_detect_suspicious_keywords]; [hostname] is not empty. *)
Definition _detect_suspicious_keywords (full_url hostname : str) : Z :=
  if truth (_is_legitimate_domain hostname) then 0
  else if existsb (fun keyword => str_in keyword hostname)
                  domain_suspicious_keywords
  then 1
  else
    let path := path_after_host full_url hostname in
    let keyword_in_path :=
      existsb (fun keyword => str_in keyword path) path_suspicious_keywords in
    if keyword_in_path then
      if (truth (_detect_suspicious_tld hostname)
          || truth (_has_ip_address hostname)
          || char_in "@" full_url)%bool
      then 1 else 0
    else 0.

(** [_is_url_shortener] *)
Definition _is_url_shortener (hostname : str) : Z :=
  let hostname_clean := replace hostname (lit "www.") (lit "") in
  if mem hostname_clean url_shorteners then 1 else 0.

(** [_has_excessive_subdomains] *)
Definition _has_excessive_subdomains (hostname : str) : Z :=
  let parts := split hostname (lit ".") in
  if (5 <? List.length parts)%nat then 1 else 0.

Definition brand_action_combos : list (str * str) :=
  map (fun p => (lit (fst p), lit (snd p)))
    [("paypal", "verify"); ("paypal", "security"); ("paypal", "suspended");
     ("amazon", "verify"); ("amazon", "suspended"); ("amazon", "update");
     ("microsoft", "security"); ("microsoft", "verify");
     ("google", "verify"); ("google", "suspended");
     ("apple", "verify");
     ("whatsapp", "verify"); ("whatsapp", "suspended"); ("whatsapp", "banned");
     ("account", "suspended"); ("account", "locked");
     ("security", "alert");
     ("urgent", "verify");
     ("confirm", "identity")]%string.

(** [_detect_suspicious_keyword_combinations] *)
Definition _detect_suspicious_keyword_combinations (full_url hostname : str)
  : Z :=
  if truth (_is_legitimate_domain hostname) then 0
  else if existsb
            (fun p => (str_in (fst p) full_url && str_in (snd p) full_url)%bool)
            brand_action_combos
  then 1
  else 0.

Section Extract.

Variable check_bracketed_host : str -> bool.

(** The body of [extract_features] once [url] is a non-empty [str] and
    [urlparse] has returned. *)
Definition extract_parsed (url : str) (parsed : UrlParse.ParseResult)
  : features :=
  let hostname := lower (UrlParse.netloc parsed) in
  let full_url := lower url in
  let features :=
    [("url_length", Z.min (len url) 150);
     ("num_dots", Z.min (Z.of_nat (count "." url)) 5);
     ("num_hyphens", Z.min (Z.of_nat (count "-" url)) 5);
     ("num_digits",
        Z.min (Z.of_nat (List.length (filter isdigit url))) 10);
     ("has_at_symbol", if char_in "@" url then 1 else 0);
     ("num_params", Z.min (Z.of_nat (count "=" url)) 5);
     ("has_ip", _has_ip_address hostname);
     ("is_https",
        if str_eqb (UrlParse.scheme parsed) (lit "https") then 1 else 0);
     ("path_length", Z.min (len (UrlParse.path parsed)) 100);
     ("domain_length", Z.min (len (UrlParse.netloc parsed)) 50)]%string in
  let features :=
    dict_set features "has_brand_spoofing"
             (_detect_brand_spoofing hostname full_url) in
  let features :=
    dict_set features "has_suspicious_tld" (_detect_suspicious_tld hostname) in
  let features :=
    dict_set features "has_character_substitution"
             (_detect_character_substitution hostname) in
  let features :=
    dict_set features "has_suspicious_keywords"
             (_detect_suspicious_keywords full_url hostname) in
  let features :=
    dict_set features "is_url_shortener" (_is_url_shortener hostname) in
  let features :=
    dict_set features "excessive_subdomains"
             (_has_excessive_subdomains hostname) in
  let features :=
    dict_set features "suspicious_keyword_combo"
             (_detect_suspicious_keyword_combinations full_url hostname) in
  features.

(** [extract_features] on a value from which the log message of the [except]
    handler can be built: an exception raised in the [try] block is caught
    and answered with the default features.  [extract_features_call] below
    is the call on every object. *)
Definition extract_features (url : pyvalue) : features :=
  match url with
  | PyOther _ => _get_default_features
  | PyStr [] => _get_default_features
  | PyStr s =>
      match UrlParse.urlparse check_bracketed_host s with
      | None => _get_default_features
      | Some parsed =>
          match UrlParse.netloc parsed with
          | [] => _get_default_features
          | _ => extract_parsed s parsed
          end
      end
  end.

(** An object handed to [extract_features], with what the [except] handler
    observes of it: [logging.error(f"... {url}: {e}")] formats the object and
    the exception, and that raises in its turn when [str(url)] does.  A [str]
    can always be formatted. *)
Inductive pyobject : Type :=
| Loggable (v : pyvalue)              (* the message can be built *)
| Unloggable (truth : option bool).   (* not a [str]; [str(url)] raises *)

Definition value_of (o : pyobject) : pyvalue :=
  match o with
  | Loggable v => v
  | Unloggable t => PyOther t
  end.

Definition loggable (o : pyobject) : bool :=
  match o with
  | Loggable _ => true
  | Unloggable _ => false
  end.

(** The [try] block of [extract_features]; [None]: an exception is raised,
    by the truth test of [not url] or by [urlparse]. *)
Definition try_block (url : pyvalue) : option features :=
  match url with
  | PyOther None => None
  | PyOther (Some _) => Some _get_default_features
  | PyStr [] => Some _get_default_features
  | PyStr s =>
      match UrlParse.urlparse check_bracketed_host s with
      | None => None
      | Some parsed =>
          match UrlParse.netloc parsed with
          | [] => Some _get_default_features
          | _ => Some (extract_parsed s parsed)
          end
      end
  end.

(** The [except] handler: the message is built and logged, then the default
    features are returned; [None]: building the message raises, and the
    exception leaves [extract_features]. *)
Definition except_handler (o : pyobject) : option features :=
  if loggable o then Some _get_default_features else None.

(** A call of [extract_features]; [None]: the call raises. *)
Definition extract_features_call (o : pyobject) : option features :=
  match try_block (value_of o) with
  | Some features => Some features
  | None => except_handler o
  end.

End Extract.

End Extractor.


(** ** The batch functions of [feature_extraction.py]

    A [DataFrame] built from a list of feature dictionaries is modelled as
    the list of its rows. *)

Module Batch.
Import PyStr Extractor.

Section Rows.

Variable check_bracketed_host : str -> bool.

(** The loop of [process_urls_batch] from index [i] on; [None] when
    [labels[i]] raises [IndexError]. *)
Fixpoint process_from (i : nat) (urls : list pyvalue) (labels : list Z)
  : option (list features) :=
  match urls with
  | [] => Some []
  | url :: rest =>
      let features := Extractor.extract_features check_bracketed_host url in
      match nth_error labels i with
      | None => None
      | Some label =>
          let features := dict_set features "label" label in
          match process_from (S i) rest labels with
          | Some features_list => Some (features :: features_list)
          | None => None
          end
      end
  end.

(** [process_urls_batch(urls, labels)] *)
Definition process_urls_batch (urls : list pyvalue) (labels : list Z)
  : option (list features) :=
  process_from 0 urls labels.

(** The module-level [extract_features(urls)]. *)
Definition extract_features (urls : list pyvalue) : list features :=
  map (Extractor.extract_features check_bracketed_host) urls.

End Rows.

End Batch.

(** ** The specification's vocabulary *)

Module Spec.
Import PyStr Extractor.

(** The field names of a feature vector, in the order of the schema. *)
Definition schema : list string :=
  ["url_length"; "num_dots"; "num_hyphens"; "num_digits"; "has_at_symbol";
   "num_params"; "has_ip"; "is_https"; "path_length"; "domain_length";
   "has_brand_spoofing"; "has_suspicious_tld"; "has_character_substitution";
   "has_suspicious_keywords"; "is_url_shortener"; "excessive_subdomains";
   "suspicious_keyword_combo"]%string.

(** The last [n] characters of [s]. *)
Definition ending (n : nat) (s : str) : str := skipn (List.length s - n) s.

(** The characters of a dotted quad, and the newline that [$] lets by. *)
Definition quad_char (c : ascii) : bool :=
  (is_ascii_digit c || Ascii.eqb "."%char c || Ascii.eqb c "010"%char)%bool.

(** One to three ASCII digits. *)
Definition octet_digits (a : str) : Prop :=
  (1 <= List.length a <= 3)%nat /\ forallb is_ascii_digit a = true.

(** Four groups of one to three digits, with dots between them. *)
Definition dotted_quad (h : str) : Prop :=
  exists a b c d,
    octet_digits a /\ octet_digits b /\ octet_digits c /\ octet_digits d
    /\ h = a ++ "."%char :: b ++ "."%char :: c ++ "."%char :: d.

(** [l] is the second-to-last label of the host [h]. *)
Definition second_level_label (h l : str) : Prop :=
  exists t, ~ In "."%char l /\ ~ In "."%char t
            /\ (h = l ++ "."%char :: t
                \/ exists pre, h = pre ++ "."%char :: l ++ "."%char :: t).

(** The brand names that the look-alike patterns match as they are. *)
Definition plain_brand_names : list str :=
  map lit ["paypal"; "google"; "microsoft"; "facebook"; "netflix"]%string.

(** The words of the numbered-subdomain pattern. *)
Definition numbered_prefix_words : list str :=
  map lit ["web"; "app"; "mail"; "cdn"; "api"; "server"; "host";
           "node"]%string.

(** [sub] occurs in [s]. *)
Definition occurs_in (sub s : str) : Prop := exists a b, s = a ++ sub ++ b.

(** [s] ends with [p]. *)
Definition ends_with (s p : str) : Prop := exists a, s = a ++ p.

(** [urlsplit] in two steps: the scheme, then the rest. *)
Definition split_scheme (url : str) : str * str :=
  match find ":" url, url with
  | Some (S i'), c0 :: _ =>
      let i := S i' in
      if (in_range 0 127 c0 && is_ascii_alpha c0
          && forallb UrlParse.scheme_chars (firstn i url))%bool
      then (lower (firstn i url), skipn (S i) url)
      else ([], url)
  | _, _ => ([], url)
  end.

Definition urlsplit_after_scheme (chk : str -> bool) (scheme url : str)
  : option (str * str * str * str * str) :=
  let '(netloc, url) :=
    if str_eqb (firstn 2 url) (lit "//") then UrlParse._splitnetloc url 2
    else ([], url) in
  let lb := char_in "[" netloc in
  let rb := char_in "]" netloc in
  if ((lb && negb rb) || (rb && negb lb))%bool then None
  else if (lb && rb
           && negb (chk (UrlParse.partition_before "]"
                           (UrlParse.partition_after "[" netloc))))%bool
  then None
  else
    let '(url, fragment) :=
      match UrlParse.split_once "#" url with
      | Some p => p
      | None => (url, [])
      end in
    let '(url, query) :=
      match UrlParse.split_once "?" url with
      | Some p => p
      | None => (url, [])
      end in
    Some (scheme, netloc, url, query, fragment).

(** A parse result with everything but the scheme in lower case. *)
Definition lower_result (p : UrlParse.ParseResult) : UrlParse.ParseResult :=
  UrlParse.mkParseResult (UrlParse.scheme p) (lower (UrlParse.netloc p))
    (lower (UrlParse.path p)) (lower (UrlParse.params p))
    (lower (UrlParse.query p)) (lower (UrlParse.fragment p)).

(** The largest value a field can take. *)
Definition cap (k : string) : Z :=
  if String.eqb k "url_length" then 150
  else if String.eqb k "path_length" then 100
  else if String.eqb k "domain_length" then 50
  else if String.eqb k "num_digits" then 10
  else if (String.eqb k "num_dots" || String.eqb k "num_hyphens"
           || String.eqb k "num_params")%bool then 5
  else 1.

(** Every value of the dictionary lies between 0 and the cap of its key. *)
Definition within_caps (d : features) : Prop :=
  Forall (fun kv => (0 <= snd kv <= cap (fst kv))%Z) d.

(** The host [h] passes for a domain of [brand]: what one round of the loop
    of [_detect_brand_spoofing] looks for. *)
Definition impersonates (h brand : str) : Prop :=
  occurs_in brand h
  /\ (exists domains,
        brand_domains legitimate_brand_domains brand = Some domains
        /\ forall d, In d domains -> h <> d /\ ~ ends_with h ("."%char :: d))
  /\ ((exists indicator, In indicator (suspicious_indicators brand)
                         /\ occurs_in indicator h)
      \/ _detect_suspicious_tld h = 1%Z).

Definition impersonates_b (h brand : str) : bool :=
  (str_in brand h
   && match brand_domains legitimate_brand_domains brand with
      | Some domains =>
          negb (existsb
                  (fun legit_domain =>
                     (str_eqb h legit_domain
                      || endswith h ("."%char :: legit_domain))%bool)
                  domains)
          && (existsb (fun indicator => str_in indicator h)
                      (suspicious_indicators brand)
              || truth (_detect_suspicious_tld h))
      | None => false
      end)%bool.

(** A field of [extract(s)]. *)
Definition field (chk : str -> bool) (s : str) (k : string) : option Z :=
  dict_get (extract_features chk (PyStr s)) k.

(** [s] parses successfully: [urlparse] returns [p], with a host component. *)
Definition parses (chk : str -> bool) (s : str) (p : UrlParse.ParseResult)
  : Prop :=
  UrlParse.urlparse chk s = Some p /\ UrlParse.netloc p <> [].

(** The host the detectors see. *)
Definition host_of (p : UrlParse.ParseResult) : str :=
  lower (UrlParse.netloc p).

Definition legitimate (h : str) : Prop := _is_legitimate_domain h = 1%Z.

(** The whitelist check as the specification words it: one leading [www.]
    is stripped, then the host equals an entry or ends with a dot and an
    entry. *)
Definition strip_leading_www (h : str) : str :=
  if startswith h (lit "www.") then skipn 4 h else h.

Definition is_legitimate_spec (h : str) : bool :=
  let h' := strip_leading_www h in
  existsb (fun d => (str_eqb h' d || endswith h' ("." :: d))%bool)
          legitimate_domains.

(** The field is present and 0. *)
Definition is_zero (o : option Z) : bool :=
  match o with
  | Some 0%Z => true
  | _ => false
  end.

Definition spoofing_fields : list string :=
  ["has_brand_spoofing"; "has_character_substitution";
   "has_suspicious_keywords"; "suspicious_keyword_combo"]%string.

(** The four spoofing-style detectors are 0 on [extract(s)]. *)
Definition spoofing_signals_zero (chk : str -> bool) (s : str) : Prop :=
  field chk s "has_brand_spoofing" = Some 0%Z
  /\ field chk s "has_character_substitution" = Some 0%Z
  /\ field chk s "has_suspicious_keywords" = Some 0%Z
  /\ field chk s "suspicious_keyword_combo" = Some 0%Z.

(** The URL ["https://" + h + "/anything"]. *)
Definition https_anything (h : str) : str :=
  lit "https://" ++ h ++ lit "/anything".

(** C1 as the specification states it, at the registry entry [h] and the
    label [x] put in front of it. *)
Definition C1_as_stated (chk : str -> bool) (h x : str) : Prop :=
  spoofing_signals_zero chk (https_anything h)
  /\ spoofing_signals_zero chk (https_anything (lit "www." ++ h))
  /\ spoofing_signals_zero chk (https_anything (x ++ "." :: h)).

(** A [urlparse] that accepts every bracketed host, as CPython did before
    [_check_bracketed_host] was added. *)
Definition accept_brackets : str -> bool := fun _ => true.







(** C4 as the specification states it. *)
Definition C4_as_stated : Prop :=
  forall chk,
    let s := lit "http://192.168.1.100/paypal-login" in
    field chk s "has_ip" = Some 1%Z
    /\ field chk s "is_https" = Some 0%Z
    /\ field chk s "has_brand_spoofing" = Some 1%Z.

(** C3 as the specification states it: legitimacy vetoes every detector. *)
Definition C3_as_stated (s : str) : Prop :=
  forall chk p, parses chk s p -> legitimate (host_of p) ->
    field chk s "has_ip" = Some 0%Z
    /\ field chk s "has_brand_spoofing" = Some 0%Z
    /\ field chk s "has_suspicious_tld" = Some 0%Z
    /\ field chk s "has_character_substitution" = Some 0%Z
    /\ field chk s "has_suspicious_keywords" = Some 0%Z
    /\ field chk s "is_url_shortener" = Some 0%Z
    /\ field chk s "excessive_subdomains" = Some 0%Z
    /\ field chk s "suspicious_keyword_combo" = Some 0%Z.

(** A keyword of [kws] occurs in [s]. *)
Definition keyword_in (kws : list str) (s : str) : Prop :=
  exists kw, In kw kws /\ occurs_in kw s.

(** The corroborating signals of the path-keyword rule. *)
Definition corroborated (h url : str) : Prop :=
  _detect_suspicious_tld h = 1%Z \/ _has_ip_address h = 1%Z
  \/ occurs_in ["@"] url.



End Spec.

(** * Properties *)

Import PyStr Extractor Spec.

(** ** Facts about strings *)

Lemma str_eqb_eq (s t : str) : str_eqb s t = true <-> s = t.
Proof.
  revert t; induction s as [|a s IH]; intros [|b t]; simpl;
    try (split; [discriminate | discriminate]); try tauto.
  rewrite andb_true_iff, Ascii.eqb_eq, IH.
  split; [intros [-> ->]; reflexivity | intros H; inversion H; auto].
Qed.

Lemma str_eqb_refl (s : str) : str_eqb s s = true.
Proof. apply str_eqb_eq; reflexivity. Qed.

Lemma startswith_iff (s p : str) :
  startswith s p = true <-> exists r, s = p ++ r.
Proof.
  revert s; induction p as [|a p IH]; intros s; simpl.
  - split; [intros _; exists s; reflexivity | reflexivity].
  - destruct s as [|b s].
    + split; [discriminate | intros [r H]; discriminate].
    + rewrite andb_true_iff, Ascii.eqb_eq, IH. split.
      * intros [-> [r ->]]. exists r; reflexivity.
      * intros [r H]. inversion H; subst. split; [reflexivity | eauto].
Qed.

Lemma endswith_iff (s p : str) : endswith s p = true <-> ends_with s p.
Proof.
  unfold endswith, ends_with. rewrite startswith_iff. split.
  - intros [r H]. exists (rev r).
    rewrite <- (rev_involutive s), H, rev_app_distr, rev_involutive.
    reflexivity.
  - intros [a ->]. exists (rev a). apply rev_app_distr.
Qed.

Lemma str_in_iff (sub s : str) : str_in sub s = true <-> occurs_in sub s.
Proof.
  unfold occurs_in. induction s as [|c s IH]; simpl.
  - rewrite startswith_iff. split.
    + intros [r H]. exists [], r. exact H.
    + intros [a [b H]]. destruct a; simpl in H.
      * eauto.
      * discriminate.
  - rewrite orb_true_iff, IH, startswith_iff. split.
    + intros [[r H] | [a [b H]]].
      * exists [], r. exact H.
      * exists (c :: a), b. simpl. rewrite H. reflexivity.
    + intros [a [b H]]. destruct a as [|c' a]; simpl in H.
      * left. eauto.
      * right. inversion H; subst. eauto.
Qed.

Lemma char_in_iff (c : ascii) (s : str) : char_in c s = true <-> In c s.
Proof.
  unfold char_in. rewrite existsb_exists. split.
  - intros [x [Hin Heq]]. apply Ascii.eqb_eq in Heq. subst. exact Hin.
  - intros H. exists c. split; [exact H | apply Ascii.eqb_refl].
Qed.

Lemma char_in_occurs (c : ascii) (s : str) :
  char_in c s = true <-> occurs_in [c] s.
Proof.
  rewrite char_in_iff. unfold occurs_in. split.
  - intros H. apply in_split in H. destruct H as [a [b ->]].
    exists a, b. reflexivity.
  - intros [a [b ->]]. apply in_or_app. right. left. reflexivity.
Qed.

Lemma mem_iff (x : str) (xs : list str) : mem x xs = true <-> In x xs.
Proof.
  unfold mem. rewrite existsb_exists. split.
  - intros [y [Hin Heq]]. apply str_eqb_eq in Heq. subst. exact Hin.
  - intros H. exists x. split; [exact H | apply str_eqb_refl].
Qed.

Lemma last_in (p : str) (x : ascii) : p <> [] -> In (last p x) p.
Proof.
  induction p as [|a p IH]; [congruence | intros _].
  destruct p as [|b p]; [left; reflexivity | right].
  apply IH. discriminate.
Qed.

Lemma startswith_length (s p : str) :
  startswith s p = true -> (List.length p <= List.length s)%nat.
Proof.
  rewrite startswith_iff. intros [r ->]. rewrite length_app. lia.
Qed.

(** A text without the last character of [p] cannot complete an occurrence
    of [p]. *)
Lemma startswith_app_without (p s t : str) (x : ascii) :
  p <> [] -> ~ In (last p x) t ->
  startswith (s ++ t) p = startswith s p.
Proof.
  revert s; induction p as [|a p IH]; intros s Hp Ht; [congruence|].
  destruct s as [|b s].
  - simpl app. change (startswith [] (a :: p)) with false.
    destruct (startswith t (a :: p)) eqn:E; [exfalso | reflexivity].
    apply startswith_iff in E. destruct E as [r ->].
    apply Ht, in_or_app. left. apply last_in. discriminate.
  - simpl. destruct p as [|a' p]; [reflexivity|].
    rewrite IH; [reflexivity | discriminate | exact Ht].
Qed.

Lemma replace_aux_without (old new t : str) (x : ascii) :
  old <> [] -> ~ In (last old x) t -> replace_aux old new 0 t = t.
Proof.
  intros Hold. induction t as [|c t IH]; intros Ht; [reflexivity|].
  simpl. destruct (startswith (c :: t) old) eqn:E.
  - exfalso. apply startswith_iff in E. destruct E as [r E].
    apply Ht. rewrite E. apply in_or_app. left. apply last_in, Hold.
  - rewrite IH; [reflexivity|]. intros H. apply Ht. right. exact H.
Qed.

Lemma replace_aux_app (old new t : str) (x : ascii) :
  old <> [] -> ~ In (last old x) t ->
  forall s skip, (skip <= List.length s)%nat ->
    replace_aux old new skip (s ++ t) = replace_aux old new skip s ++ t.
Proof.
  intros Hold Ht. induction s as [|c s IH]; intros skip Hskip.
  - simpl in Hskip. assert (skip = 0%nat) as -> by lia.
    simpl. apply (replace_aux_without old new t x Hold Ht).
  - destruct skip as [|k].
    + change ((c :: s) ++ t) with (c :: (s ++ t)).
      cbn [replace_aux].
      change (c :: (s ++ t)) with ((c :: s) ++ t).
      rewrite (startswith_app_without old (c :: s) t x Hold Ht).
      destruct (startswith (c :: s) old) eqn:E.
      * apply startswith_length in E. simpl in E.
        rewrite IH by lia. apply app_assoc.
      * rewrite IH by lia. reflexivity.
    + simpl. apply IH. simpl in Hskip. lia.
Qed.

(** What the whitelist and the shortener checks compare:
    [hostname.replace('www.', '')]. *)
Lemma clean_app (s t : str) :
  ~ In "."%char t ->
  replace (s ++ t) (lit "www.") [] = replace s (lit "www.") [] ++ t.
Proof.
  intros Ht. unfold replace.
  apply (replace_aux_app (lit "www.") [] t "."%char);
    [discriminate | exact Ht | lia].
Qed.

Lemma clean_without_w (s : str) :
  ~ In "w"%char s -> replace s (lit "www.") [] = s.
Proof.
  unfold replace. induction s as [|c s IH]; intros Hs; [reflexivity|].
  cbn [replace_aux].
  destruct (startswith (c :: s) (lit "www.")) eqn:E.
  - exfalso. apply startswith_iff in E. destruct E as [r E].
    apply Hs. rewrite E. left. reflexivity.
  - rewrite IH; [reflexivity|]. intros H. apply Hs. right. exact H.
Qed.

Lemma ends_with_shorter (s d t : str) :
  ends_with s d -> ends_with s t ->
  (List.length t <= List.length d)%nat -> ends_with d t.
Proof.
  intros [a Ha] [b Hb] Hlen. rewrite Ha in Hb.
  apply app_eq_app in Hb. destruct Hb as [l [[H1 H2] | [H1 H2]]].
  - subst t. rewrite length_app in Hlen.
    assert (l = []) as -> by (destruct l; [reflexivity | simpl in Hlen; lia]).
    exists []. reflexivity.
  - exists l. exact H2.
Qed.

(** ** Facts about the whitelist check *)

Lemma is_legitimate_domain_cases (h : str) :
  _is_legitimate_domain h = 1%Z \/ _is_legitimate_domain h = 0%Z.
Proof.
  unfold _is_legitimate_domain.
  destruct (mem _ _); [left; reflexivity|].
  destruct (existsb _ _); [left | right]; reflexivity.
Qed.

Lemma truth_legitimate (h : str) :
  truth (_is_legitimate_domain h) = true <-> legitimate h.
Proof.
  unfold legitimate.
  destruct (is_legitimate_domain_cases h) as [E | E]; rewrite E;
    split; intros H; try reflexivity; discriminate.
Qed.

(** A whitelisted host, once [www.] is removed, ends with a registry entry. *)
Lemma legitimate_ends_with_entry (h : str) :
  legitimate h ->
  exists d, In d legitimate_domains
            /\ ends_with (replace h (lit "www.") []) d.
Proof.
  unfold legitimate, _is_legitimate_domain.
  change (lit "") with (@nil ascii).
  destruct (mem _ _) eqn:Em.
  - intros _. apply mem_iff in Em.
    exists (replace h (lit "www.") []). split; [exact Em | exists []; reflexivity].
  - destruct (existsb _ _) eqn:Ee; [intros _ | discriminate].
    apply existsb_exists in Ee. destruct Ee as [d [Hd Hm]].
    exists d. split; [exact Hd|].
    apply orb_true_iff in Hm. destruct Hm as [Hm | Hm].
    + apply str_eqb_eq in Hm. rewrite Hm. exists []. reflexivity.
    + apply endswith_iff in Hm. destruct Hm as [a Ha].
      exists (a ++ ["."%char]). rewrite Ha, <- app_assoc. reflexivity.
Qed.

(** The whitelist check fails on a host whose cleaned form ends with a text
    that no registry entry ends with. *)
Lemma not_legitimate_by_ending (h t : str) :
  ends_with (replace h (lit "www.") []) t ->
  forallb (fun d => (Nat.leb (List.length t) (List.length d)
                     && negb (endswith d t))%bool) legitimate_domains = true ->
  _is_legitimate_domain h = 0%Z.
Proof.
  intros Ht Hall.
  destruct (is_legitimate_domain_cases h) as [E | E]; [exfalso | exact E].
  apply legitimate_ends_with_entry in E. destruct E as [d [Hd He]].
  rewrite forallb_forall in Hall. specialize (Hall d Hd).
  apply andb_true_iff in Hall. destruct Hall as [Hlen Hno].
  apply Nat.leb_le in Hlen.
  pose proof (ends_with_shorter _ _ _ He Ht Hlen) as Hdt.
  apply endswith_iff in Hdt. rewrite Hdt in Hno. discriminate.
Qed.

(** ** Facts about patterns *)

Lemma alphabet_mkSeq (P : ascii -> bool) (r1 r2 : Re.regex) :
  Re.alphabet P r1 -> Re.alphabet P r2 -> Re.alphabet P (Re.mkSeq r1 r2).
Proof. destruct r1; simpl; auto. Qed.

Lemma alphabet_mkAlt (P : ascii -> bool) (r1 r2 : Re.regex) :
  Re.alphabet P r1 -> Re.alphabet P r2 -> Re.alphabet P (Re.mkAlt r1 r2).
Proof. destruct r1, r2; simpl; auto. Qed.

Lemma alphabet_deriv (P : ascii -> bool) (c : ascii) (r : Re.regex) :
  Re.alphabet P r -> Re.alphabet P (Re.deriv c r).
Proof.
  induction r as [| |f|r1 IH1 r2 IH2|r1 IH1 r2 IH2|r1 IH1]; simpl.
  - auto.
  - auto.
  - intros _. destruct (f c); exact I.
  - intros [H1 H2]. apply alphabet_mkAlt.
    + apply alphabet_mkSeq; auto.
    + destruct (Re.nullable r1); simpl; auto.
  - intros [H1 H2]. apply alphabet_mkAlt; auto.
  - intros H. apply alphabet_mkSeq; simpl; auto.
Qed.

(** A character outside the alphabet of a pattern leaves nothing to match. *)
Lemma deriv_outside (P : ascii -> bool) (c : ascii) (r : Re.regex) :
  P c = false -> Re.alphabet P r -> Re.deriv c r = Re.Void.
Proof.
  intros Hc.
  induction r as [| |f|r1 IH1 r2 IH2|r1 IH1 r2 IH2|r1 IH1]; simpl.
  - reflexivity.
  - reflexivity.
  - intros H. destruct (f c) eqn:E; [|reflexivity].
    apply H in E. congruence.
  - intros [H1 H2]. rewrite (IH1 H1), (IH2 H2).
    destruct (Re.nullable r1); reflexivity.
  - intros [H1 H2]. rewrite (IH1 H1), (IH2 H2). reflexivity.
  - intros H. rewrite (IH1 H). reflexivity.
Qed.

Lemma matches_dollar_void (s : str) : Re.matches_dollar Re.Void s = false.
Proof. induction s as [|c s IH]; simpl; auto. Qed.

Lemma matches_dollar_alphabet (P : ascii -> bool) (s : str) :
  forall r, Re.alphabet P r -> Re.matches_dollar r s = true ->
    forallb (fun c => (P c || Ascii.eqb c "010"%char)%bool) s = true.
Proof.
  induction s as [|c s IH]; intros r Hr Hm; [reflexivity|].
  cbn [Re.matches_dollar] in Hm. apply orb_true_iff in Hm.
  destruct Hm as [Hm | Hm].
  - apply andb_true_iff in Hm. destruct Hm as [_ Hm].
    apply str_eqb_eq in Hm. inversion Hm; subst.
    cbn [forallb]. rewrite Ascii.eqb_refl, orb_true_r. reflexivity.
  - destruct (P c) eqn:Ec.
    + cbn [forallb]. rewrite Ec. simpl.
      apply (IH (Re.deriv c r)); [apply alphabet_deriv, Hr | exact Hm].
    + rewrite (deriv_outside P c r Ec Hr), matches_dollar_void in Hm.
      discriminate.
Qed.

(** A host that [_has_ip_address] accepts is made of digits and dots, with
    at most a newline behind them. *)
Lemma has_ip_chars (h : str) :
  _has_ip_address h = 1%Z -> forallb quad_char h = true.
Proof.
  unfold _has_ip_address.
  destruct (Re.matches_dollar ip_pattern h) eqn:E; [intros _ | discriminate].
  apply (matches_dollar_alphabet
           (fun c => (is_ascii_digit c || Ascii.eqb "."%char c)%bool)) in E.
  - exact E.
  - unfold ip_pattern, Re.digit, Re.chr. simpl.
    repeat split; intros c H; rewrite H; auto using orb_true_r.
Qed.

Lemma has_ip_cases (h : str) :
  _has_ip_address h = 1%Z \/ _has_ip_address h = 0%Z.
Proof. unfold _has_ip_address. destruct (Re.matches_dollar _ _); auto. Qed.

Lemma suspicious_tld_cases (h : str) :
  _detect_suspicious_tld h = 1%Z \/ _detect_suspicious_tld h = 0%Z.
Proof. unfold _detect_suspicious_tld. destruct (existsb _ _); auto. Qed.

(** ** The whitelist against the other registries *)

(** No whitelisted host is a dotted quad. *)
Lemma legitimate_not_ip (h : str) :
  legitimate h -> _has_ip_address h = 0%Z.
Proof.
  intros Hl. destruct (has_ip_cases h) as [E | E]; [exfalso | exact E].
  apply has_ip_chars in E.
  assert (Hw : ~ In "w"%char h).
  { intros Hin. rewrite forallb_forall in E. specialize (E _ Hin).
    discriminate. }
  apply legitimate_ends_with_entry in Hl. destruct Hl as [d [Hd [a Ha]]].
  rewrite (clean_without_w h Hw) in Ha. rewrite Ha, forallb_app in E.
  apply andb_true_iff in E. destruct E as [_ E].
  assert (Hall : forallb (fun d => negb (forallb quad_char d))
                         legitimate_domains = true) by (vm_compute; reflexivity).
  rewrite forallb_forall in Hall. specialize (Hall d Hd).
  rewrite E in Hall. discriminate.
Qed.

Lemma ends_with_ending (s t : str) (n : nat) :
  ends_with s t -> ends_with s (ending n t).
Proof.
  intros [a ->]. unfold ending.
  exists (a ++ firstn (List.length t - n) t).
  rewrite <- app_assoc, firstn_skipn. reflexivity.
Qed.

(** No whitelisted host ends with a suspicious top-level domain. *)
Lemma suspicious_tld_not_legitimate (h : str) :
  _detect_suspicious_tld h = 1%Z -> _is_legitimate_domain h = 0%Z.
Proof.
  unfold _detect_suspicious_tld.
  destruct (existsb _ _) eqn:E; [intros _ | discriminate].
  apply existsb_exists in E. destruct E as [tld [Htld He]].
  apply endswith_iff in He.
  assert (Hall :
            forallb
              (fun tld =>
                 (negb (char_in "."%char (ending 2 tld))
                  && forallb
                       (fun d =>
                          (Nat.leb (List.length (ending 2 tld)) (List.length d)
                           && negb (endswith d (ending 2 tld)))%bool)
                       legitimate_domains)%bool)
              suspicious_tlds = true) by (vm_compute; reflexivity).
  rewrite forallb_forall in Hall. specialize (Hall tld Htld).
  apply andb_true_iff in Hall. destruct Hall as [Hdot Hreg].
  apply (ends_with_ending _ _ 2) in He. destruct He as [a Ha].
  apply (not_legitimate_by_ending h (ending 2 tld)); [|exact Hreg].
  rewrite Ha, clean_app.
  - exists (replace a (lit "www.") []). reflexivity.
  - intros Hin. apply char_in_iff in Hin. rewrite Hin in Hdot. discriminate.
Qed.

Lemma legitimate_not_suspicious_tld (h : str) :
  legitimate h -> _detect_suspicious_tld h = 0%Z.
Proof.
  intros Hl. destruct (suspicious_tld_cases h) as [E | E]; [|exact E].
  apply suspicious_tld_not_legitimate in E. unfold legitimate in Hl.
  congruence.
Qed.

(** ** The assembler *)

Lemma urlparse_empty (chk : str -> bool) :
  exists p, UrlParse.urlparse chk [] = Some p /\ UrlParse.netloc p = [].
Proof. eexists. split; reflexivity. Qed.

Lemma extract_features_parsed (chk : str -> bool) (s : str)
      (p : UrlParse.ParseResult) :
  parses chk s p -> extract_features chk (PyStr s) = extract_parsed s p.
Proof.
  intros [Hp Hn]. destruct s as [|c s].
  - destruct (urlparse_empty chk) as [q [Hq Hq']]. congruence.
  - unfold extract_features. rewrite Hp.
    destruct (UrlParse.netloc p); [congruence | reflexivity].
Qed.

Lemma extract_parsed_fields (s : str) (p : UrlParse.ParseResult) :
  extract_parsed s p =
  [("url_length", Z.min (len s) 150);
   ("num_dots", Z.min (Z.of_nat (count "." s)) 5);
   ("num_hyphens", Z.min (Z.of_nat (count "-" s)) 5);
   ("num_digits", Z.min (Z.of_nat (List.length (filter isdigit s))) 10);
   ("has_at_symbol", if char_in "@" s then 1 else 0);
   ("num_params", Z.min (Z.of_nat (count "=" s)) 5);
   ("has_ip", _has_ip_address (host_of p));
   ("is_https",
      if str_eqb (UrlParse.scheme p) (lit "https") then 1 else 0);
   ("path_length", Z.min (len (UrlParse.path p)) 100);
   ("domain_length", Z.min (len (UrlParse.netloc p)) 50);
   ("has_brand_spoofing", _detect_brand_spoofing (host_of p) (lower s));
   ("has_suspicious_tld", _detect_suspicious_tld (host_of p));
   ("has_character_substitution",
      _detect_character_substitution (host_of p));
   ("has_suspicious_keywords",
      _detect_suspicious_keywords (lower s) (host_of p));
   ("is_url_shortener", _is_url_shortener (host_of p));
   ("excessive_subdomains", _has_excessive_subdomains (host_of p));
   ("suspicious_keyword_combo",
      _detect_suspicious_keyword_combinations (lower s) (host_of p))
  ]%string%Z.
Proof. reflexivity. Qed.

(** Reading a field of a successfully parsed URL. *)
Ltac read_field H :=
  unfold field; rewrite (extract_features_parsed _ _ _ H),
    extract_parsed_fields; reflexivity.

Lemma field_has_ip chk s p :
  parses chk s p ->
  field chk s "has_ip" = Some (_has_ip_address (host_of p)).
Proof. intros H. read_field H. Qed.

Lemma field_brand_spoofing chk s p :
  parses chk s p ->
  field chk s "has_brand_spoofing"
  = Some (_detect_brand_spoofing (host_of p) (lower s)).
Proof. intros H. read_field H. Qed.

Lemma field_suspicious_tld chk s p :
  parses chk s p ->
  field chk s "has_suspicious_tld" = Some (_detect_suspicious_tld (host_of p)).
Proof. intros H. read_field H. Qed.

Lemma field_character_substitution chk s p :
  parses chk s p ->
  field chk s "has_character_substitution"
  = Some (_detect_character_substitution (host_of p)).
Proof. intros H. read_field H. Qed.

Lemma field_suspicious_keywords chk s p :
  parses chk s p ->
  field chk s "has_suspicious_keywords"
  = Some (_detect_suspicious_keywords (lower s) (host_of p)).
Proof. intros H. read_field H. Qed.

Lemma field_url_shortener chk s p :
  parses chk s p ->
  field chk s "is_url_shortener" = Some (_is_url_shortener (host_of p)).
Proof. intros H. read_field H. Qed.

Lemma field_keyword_combo chk s p :
  parses chk s p ->
  field chk s "suspicious_keyword_combo"
  = Some (_detect_suspicious_keyword_combinations (lower s) (host_of p)).
Proof. intros H. read_field H. Qed.

(** The four detectors that consult the whitelist return 0 on a whitelisted
    host. *)
Lemma vetoed_detectors (h u : str) :
  legitimate h ->
  _detect_brand_spoofing h u = 0%Z
  /\ _detect_character_substitution h = 0%Z
  /\ _detect_suspicious_keywords u h = 0%Z
  /\ _detect_suspicious_keyword_combinations u h = 0%Z.
Proof.
  intros Hl. apply truth_legitimate in Hl.
  unfold _detect_brand_spoofing, _detect_character_substitution,
    _detect_suspicious_keywords, _detect_suspicious_keyword_combinations.
  rewrite Hl. auto.
Qed.

(** ** The claims *)

(** C3 (amended).  On a successfully parsed URL whose host passes the
    whitelist check, the four detectors that consult the whitelist
    (has_brand_spoofing, has_character_substitution, has_suspicious_keywords,
    suspicious_keyword_combo) are 0, and so are has_suspicious_tld and has_ip,
    because no whitelisted host ends with a suspicious TLD or is a dotted
    quad.  is_url_shortener and excessive_subdomains are not vetoed. *)
Theorem C3_legitimacy_veto (chk : str -> bool) (s : str)
        (p : UrlParse.ParseResult) :
  parses chk s p -> legitimate (host_of p) ->
  field chk s "has_brand_spoofing" = Some 0%Z
  /\ field chk s "has_character_substitution" = Some 0%Z
  /\ field chk s "has_suspicious_keywords" = Some 0%Z
  /\ field chk s "suspicious_keyword_combo" = Some 0%Z
  /\ field chk s "has_suspicious_tld" = Some 0%Z
  /\ field chk s "has_ip" = Some 0%Z.
Proof.
  intros Hp Hl.
  destruct (vetoed_detectors (host_of p) (lower s) Hl) as [H1 [H2 [H3 H4]]].
  rewrite (field_brand_spoofing _ _ _ Hp), (field_character_substitution _ _ _ Hp),
    (field_suspicious_keywords _ _ _ Hp), (field_keyword_combo _ _ _ Hp),
    (field_suspicious_tld _ _ _ Hp), (field_has_ip _ _ _ Hp).
  rewrite H1, H2, H3, H4, (legitimate_not_suspicious_tld _ Hl),
    (legitimate_not_ip _ Hl).
  repeat split; reflexivity.
Qed.

(** C3, the claim as stated fails: [t.co] is whitelisted and a shortener, and
    a whitelisted host with six labels has excessive subdomains. *)
Lemma C3_counterexample :
  ~ C3_as_stated (lit "https://t.co/x")
  /\ ~ C3_as_stated (lit "https://a.b.c.d.google.com/x").
Proof.
  split; intros H.
  - destruct (H accept_brackets
                (UrlParse.mkParseResult (lit "https") (lit "t.co") (lit "/x")
                                        [] [] []))
      as [_ [_ [_ [_ [_ [E _]]]]]].
    + split; [vm_compute; reflexivity | discriminate].
    + vm_compute; reflexivity.
    + vm_compute in E. discriminate.
  - destruct (H accept_brackets
                (UrlParse.mkParseResult (lit "https") (lit "a.b.c.d.google.com")
                                        (lit "/x") [] [] []))
      as [_ [_ [_ [_ [_ [_ [E _]]]]]]].
    + split; [vm_compute; reflexivity | discriminate].
    + vm_compute; reflexivity.
    + vm_compute in E. discriminate.
Qed.

Lemma C3_witness :
  let s := lit "https://mail.google.com/verify-account" in
  field accept_brackets s "has_brand_spoofing" = Some 0%Z
  /\ field accept_brackets s "has_character_substitution" = Some 0%Z
  /\ field accept_brackets s "has_suspicious_keywords" = Some 0%Z
  /\ field accept_brackets s "suspicious_keyword_combo" = Some 0%Z
  /\ field accept_brackets s "has_suspicious_tld" = Some 0%Z
  /\ field accept_brackets s "has_ip" = Some 0%Z.
Proof.
  apply (C3_legitimacy_veto accept_brackets
           (lit "https://mail.google.com/verify-account")
           (UrlParse.mkParseResult (lit "https") (lit "mail.google.com")
                                   (lit "/verify-account") [] [] [])).
  - split; [vm_compute; reflexivity | discriminate].
  - vm_compute; reflexivity.
Defined.

(** C4 (amended).  [extract("http://192.168.1.100/paypal-login")] has
    has_ip = 1, is_https = 0 and has_brand_spoofing = 0: the brand detector
    reads the host only, and the host holds no brand keyword. *)
Theorem C4_ip_host_brand_in_path (chk : str -> bool) :
  let s := lit "http://192.168.1.100/paypal-login" in
  field chk s "has_ip" = Some 1%Z
  /\ field chk s "is_https" = Some 0%Z
  /\ field chk s "has_brand_spoofing" = Some 0%Z.
Proof. vm_compute. repeat split. Qed.

(** C4, the claim as stated fails: has_brand_spoofing is 0 on that URL. *)
Lemma C4_counterexample : ~ C4_as_stated.
Proof.
  intros H. destruct (H accept_brackets) as [_ [_ E]].
  vm_compute in E. discriminate.
Qed.


(** When the log message can be built, the call returns what
    [extract_features] gives. *)
Lemma extract_features_call_loggable (chk : str -> bool) (v : pyvalue) :
  extract_features_call chk (Loggable v) = Some (extract_features chk v).
Proof.
  unfold extract_features_call, except_handler, try_block, extract_features.
  cbn [value_of loggable].
  destruct v as [[|c s] | [b|]]; try reflexivity.
  destruct (UrlParse.urlparse chk (c :: s)) as [p|]; [|reflexivity].
  destruct (UrlParse.netloc p); reflexivity.
Qed.

(** The call raises on one kind of object only: the truth test raises, and so
    does building the log message. *)
Lemma extract_features_call_raises (chk : str -> bool) (o : pyobject) :
  extract_features_call chk o = None <-> o = Unloggable None.
Proof.
  split; [|intros ->; reflexivity].
  destruct o as [v | [b|]]; [| |reflexivity].
  - rewrite extract_features_call_loggable. discriminate.
  - discriminate.
Qed.




(** An input on which [urlparse] raises is answered with the default vector
    as well. *)
Lemma extract_features_value_error (chk : str -> bool) (s : str) :
  UrlParse.urlparse chk s = None ->
  extract_features chk (PyStr s) = _get_default_features.
Proof.
  intros H. destruct s as [|c s]; [reflexivity|].
  unfold extract_features. rewrite H. reflexivity.
Qed.




(** C8, the failing input.  [extract("https://bit.ly/x")] has
    is_url_shortener = 1 and [extract("https://bit.ly.evil.com/x")] has
    is_url_shortener = 0, as stated; but the check removes every [www.] of
    the host, not a leading one, so [extract("https://bit.www.ly/x")] has
    is_url_shortener = 1 although the host [bit.www.ly], with or without a
    leading [www.] stripped, is no element of [url_shorteners]. *)
Theorem C8_inner_www_is_flagged (chk : str -> bool) :
  field chk (lit "https://bit.ly/x") "is_url_shortener" = Some 1%Z
  /\ field chk (lit "https://bit.ly.evil.com/x") "is_url_shortener" = Some 0%Z
  /\ field chk (lit "https://bit.www.ly/x") "is_url_shortener" = Some 1%Z
  /\ strip_leading_www (lit "bit.www.ly") = lit "bit.www.ly"
  /\ ~ In (lit "bit.www.ly") url_shorteners.
Proof.
  split; [vm_compute; reflexivity|].
  split; [vm_compute; reflexivity|].
  split; [vm_compute; reflexivity|].
  split; [reflexivity|].
  rewrite <- mem_iff. vm_compute. discriminate.
Qed.

(** C9.  Two URLs that parse successfully with the same lower-cased
    authority get the same has_brand_spoofing: scheme, path, query and the rest
    of the URL have no influence on it. *)
Theorem C9_brand_spoofing_host_only (chk : str -> bool) (s1 s2 : str)
        (p1 p2 : UrlParse.ParseResult) :
  parses chk s1 p1 -> parses chk s2 p2 ->
  host_of p1 = host_of p2 ->
  field chk s1 "has_brand_spoofing" = field chk s2 "has_brand_spoofing".
Proof.
  intros H1 H2 Hh.
  rewrite (field_brand_spoofing _ _ _ H1), (field_brand_spoofing _ _ _ H2).
  unfold _detect_brand_spoofing. rewrite Hh. reflexivity.
Qed.

Lemma C9_witness :
  field accept_brackets (lit "http://PayPal-Login.TK/a") "has_brand_spoofing"
  = field accept_brackets
          (lit "https://paypal-login.tk/google-verify?amazon-security=1")
          "has_brand_spoofing".
Proof.
  apply (C9_brand_spoofing_host_only accept_brackets _ _
           (UrlParse.mkParseResult (lit "http") (lit "PayPal-Login.TK")
                                   (lit "/a") [] [] [])
           (UrlParse.mkParseResult (lit "https") (lit "paypal-login.tk")
                                   (lit "/google-verify") []
                                   (lit "amazon-security=1") [])).
  - split; [vm_compute; reflexivity | discriminate].
  - split; [vm_compute; reflexivity | discriminate].
  - vm_compute; reflexivity.
Defined.

Lemma keyword_in_iff (kws : list str) (s : str) :
  existsb (fun keyword => str_in keyword s) kws = true <-> keyword_in kws s.
Proof.
  unfold keyword_in. rewrite existsb_exists.
  split; intros [kw [Hin H]]; exists kw; (split; [exact Hin|]);
    apply str_in_iff; exact H.
Qed.

Lemma corroborated_iff (h u : str) :
  (truth (_detect_suspicious_tld h) || truth (_has_ip_address h)
   || char_in "@" u)%bool = true <-> corroborated h u.
Proof.
  unfold corroborated. rewrite !orb_true_iff, char_in_occurs.
  destruct (suspicious_tld_cases h) as [E1 | E1];
    destruct (has_ip_cases h) as [E2 | E2]; rewrite E1, E2; simpl;
    intuition discriminate.
Qed.

(** What [_detect_suspicious_keywords] computes on a successfully parsed URL:
    0 when the authority passes the whitelist check; otherwise 1 exactly when
    a domain-level keyword occurs in the authority, or a path-level keyword
    occurs in [full_url.split(hostname)[-1]] and one of the three signals
    holds, each read on the authority as the code reads it. *)
Lemma suspicious_keywords_rule (chk : str -> bool) (s : str)
      (p : UrlParse.ParseResult) :
  parses chk s p ->
  (legitimate (host_of p) ->
     field chk s "has_suspicious_keywords" = Some 0%Z)
  /\ (~ legitimate (host_of p) ->
      (field chk s "has_suspicious_keywords" = Some 1%Z
       <-> keyword_in domain_suspicious_keywords (host_of p)
           \/ (keyword_in path_suspicious_keywords
                          (path_after_host (lower s) (host_of p))
               /\ corroborated (host_of p) (lower s)))).
Proof.
  intros Hp. rewrite (field_suspicious_keywords _ _ _ Hp). split.
  - intros Hl.
    destruct (vetoed_detectors (host_of p) (lower s) Hl) as [_ [_ [H _]]].
    rewrite H. reflexivity.
  - intros Hn. rewrite <- truth_legitimate in Hn.
    apply not_true_is_false in Hn.
    unfold _detect_suspicious_keywords. rewrite Hn.
    rewrite <- !keyword_in_iff, <- corroborated_iff.
    destruct (existsb _ domain_suspicious_keywords).
    + split; [intros _; left; reflexivity | reflexivity].
    + destruct (existsb _ path_suspicious_keywords).
      * destruct (_ || _ || _)%bool.
        -- split; [intros _; right; split; reflexivity | reflexivity].
        -- split; [discriminate | intros [H | [_ H]]; discriminate].
      * split; [discriminate | intros [H | [H _]]; discriminate].
Qed.

(** C5, the failing inputs.  On [http://1.2.3.4/urgent/1.2.3.4/x] the host
    fails the whitelist check and is an IP literal, and the path-level
    keyword [urgent] occurs in the path component, so the claim gives
    has_suspicious_keywords = 1.  The code looks for the keyword in
    [full_url.split(hostname)[-1]], which is [/x] here because the host occurs
    again in the path, and gives 0.  The same text holds query and fragment,
    so [http://1.2.3.4/a?x=urgent], whose path component is [/a], gets 1; and
    the IP test reads host and port together, so
    [http://1.2.3.4:8080/urgent] gets 0. *)
Theorem C5_path_keyword_missed (chk : str -> bool) :
  (let s := lit "http://1.2.3.4/urgent/1.2.3.4/x" in
   let p := UrlParse.mkParseResult (lit "http") (lit "1.2.3.4")
                                   (lit "/urgent/1.2.3.4/x") [] [] [] in
   parses chk s p
   /\ ~ legitimate (host_of p)
   /\ dotted_quad (host_of p)
   /\ keyword_in path_suspicious_keywords (lower (UrlParse.path p))
   /\ path_after_host (lower s) (host_of p) = lit "/x"
   /\ field chk s "has_suspicious_keywords" = Some 0%Z)
  /\ (let s := lit "http://1.2.3.4/a?x=urgent" in
      let p := UrlParse.mkParseResult (lit "http") (lit "1.2.3.4") (lit "/a")
                                      [] (lit "x=urgent") [] in
      parses chk s p
      /\ ~ keyword_in path_suspicious_keywords (lower (UrlParse.path p))
      /\ ~ keyword_in domain_suspicious_keywords (host_of p)
      /\ field chk s "has_suspicious_keywords" = Some 1%Z)
  /\ (let s := lit "http://1.2.3.4:8080/urgent" in
      let p := UrlParse.mkParseResult (lit "http") (lit "1.2.3.4:8080")
                                      (lit "/urgent") [] [] [] in
      parses chk s p
      /\ ~ legitimate (host_of p)
      /\ keyword_in path_suspicious_keywords (lower (UrlParse.path p))
      /\ host_of p = lit "1.2.3.4" ++ lit ":8080"
      /\ dotted_quad (lit "1.2.3.4")
      /\ field chk s "has_suspicious_keywords" = Some 0%Z).
Proof.
  assert (Hq : dotted_quad (lit "1.2.3.4")).
  { exists (lit "1"), (lit "2"), (lit "3"), (lit "4").
    unfold octet_digits. simpl. repeat split; lia. }
  assert (Hk : keyword_in path_suspicious_keywords (lit "/urgent")).
  { apply keyword_in_iff. vm_compute. reflexivity. }
  cbv zeta. split; [|split].
  - split; [split; [vm_compute; reflexivity | discriminate]|].
    split; [vm_compute; discriminate|].
    split; [exact Hq|].
    split; [apply keyword_in_iff; vm_compute; reflexivity|].
    split; vm_compute; reflexivity.
  - split; [split; [vm_compute; reflexivity | discriminate]|].
    split; [intros H; apply keyword_in_iff in H; vm_compute in H;
            discriminate|].
    split; [intros H; apply keyword_in_iff in H; vm_compute in H;
            discriminate|].
    vm_compute; reflexivity.
  - split; [split; [vm_compute; reflexivity | discriminate]|].
    split; [vm_compute; discriminate|].
    split; [exact Hk|].
    split; [reflexivity|].
    split; [exact Hq|].
    vm_compute; reflexivity.
Qed.

Lemma lower_char_dot (c : ascii) : lower_char c = "."%char -> c = "."%char.
Proof.
  destruct c as [[] [] [] [] [] [] [] []]; vm_compute; intros H;
    solve [reflexivity | discriminate].
Qed.

Lemma lower_without_dot (b : str) : ~ In "."%char b -> ~ In "."%char (lower b).
Proof.
  intros Hb Hin. unfold lower in Hin. apply in_map_iff in Hin.
  destruct Hin as [c [Hc Hin]]. apply lower_char_dot in Hc. subst.
  exact (Hb Hin).
Qed.



(** A colon that is no port, as in front of a password, leaves the check as
    it is: what stands behind the colon still ends with [.google.com]. *)
Lemma userinfo_colon_keeps_whitelist :
  _is_legitimate_domain (lit "u:p@mail.google.com") = 1%Z.
Proof. vm_compute. reflexivity. Qed.


(** The veto on the registry entries themselves and on their [www.]
    variants: the part of C1 that the code fulfils. *)
Lemma is_zero_eq (o : option Z) : is_zero o = true -> o = Some 0%Z.
Proof. destruct o as [[| |]|]; simpl; intros H; congruence. Qed.

Lemma veto_on_entries_and_www (chk : str -> bool) (h : str) :
  In h legitimate_domains ->
  spoofing_signals_zero chk (https_anything h)
  /\ spoofing_signals_zero chk (https_anything (lit "www." ++ h)).
Proof.
  intros Hh.
  assert (Hall :
            forallb
              (fun h =>
                 forallb
                   (fun u =>
                      forallb (fun k => is_zero (field chk u k))
                              spoofing_fields)
                   [https_anything h; https_anything (lit "www." ++ h)])
              legitimate_domains = true) by (vm_compute; reflexivity).
  rewrite forallb_forall in Hall. specialize (Hall h Hh).
  rewrite forallb_forall in Hall.
  assert (Hz : forall u,
             In u [https_anything h; https_anything (lit "www." ++ h)] ->
             spoofing_signals_zero chk u).
  { intros u Hu. specialize (Hall u Hu). rewrite forallb_forall in Hall.
    unfold spoofing_signals_zero.
    repeat split; apply is_zero_eq, Hall; unfold spoofing_fields; simpl; tauto. }
  split; apply Hz; simpl; tauto.
Qed.

Lemma clean_prefix_without_w (y t : str) :
  ~ In "w"%char y ->
  replace (y ++ t) (lit "www.") [] = y ++ replace t (lit "www.") [].
Proof.
  unfold replace. induction y as [|c y IH]; intros Hy; [reflexivity|].
  change ((c :: y) ++ t) with (c :: (y ++ t)). cbn [replace_aux].
  destruct (startswith (c :: y ++ t) (lit "www.")) eqn:E.
  - exfalso. apply startswith_iff in E. destruct E as [r E].
    apply Hy. left. inversion E. reflexivity.
  - rewrite IH; [reflexivity|]. intros H. apply Hy. right. exact H.
Qed.

(** A dot-suffixed variant of a registry entry passes the whitelist check
    when its front part has no [w]. *)
Lemma subdomain_without_w_legitimate (y h : str) :
  In h legitimate_domains -> ~ In "w"%char y ->
  legitimate (y ++ "."%char :: h).
Proof.
  intros Hh Hy. unfold legitimate, _is_legitimate_domain.
  change (lit "") with (@nil ascii).
  rewrite (clean_prefix_without_w y ("."%char :: h) Hy).
  assert (Hall : forallb (fun h => str_eqb (replace ("."%char :: h)
                                                    (lit "www.") [])
                                           ("."%char :: h))
                         legitimate_domains = true) by (vm_compute; reflexivity).
  rewrite forallb_forall in Hall. specialize (Hall h Hh).
  apply str_eqb_eq in Hall. rewrite Hall.
  destruct (mem _ _); [reflexivity|].
  assert (He : existsb
                 (fun domain =>
                    (str_eqb (y ++ "."%char :: h) domain
                     || endswith (y ++ "."%char :: h) ("."%char :: domain))%bool)
                 legitimate_domains = true).
  { apply existsb_exists. exists h. split; [exact Hh|].
    apply orb_true_iff. right. apply endswith_iff. exists y. reflexivity. }
  rewrite He. reflexivity.
Qed.

(** The veto on the dot-suffixed variants whose front part has no [w]. *)
Lemma veto_on_subdomains_without_w (chk : str -> bool) (s : str)
      (p : UrlParse.ParseResult) (y h : str) :
  parses chk s p -> host_of p = y ++ "."%char :: h ->
  In h legitimate_domains -> ~ In "w"%char y ->
  spoofing_signals_zero chk s.
Proof.
  intros Hp Hh Hin Hy.
  pose proof (subdomain_without_w_legitimate y h Hin Hy) as Hl.
  rewrite <- Hh in Hl.
  destruct (vetoed_detectors (host_of p) (lower s) Hl) as [H1 [H2 [H3 H4]]].
  unfold spoofing_signals_zero.
  rewrite (field_brand_spoofing _ _ _ Hp),
    (field_character_substitution _ _ _ Hp),
    (field_suspicious_keywords _ _ _ Hp), (field_keyword_combo _ _ _ Hp).
  rewrite H1, H2, H3, H4. repeat split; reflexivity.
Qed.

(** C1, the failing input.  [google.com] is a registry entry, yet on its
    dot-suffixed variant [awww.google.com] the whitelist check fails, because
    [replace] removes the [www.] that ends the label, and
    has_character_substitution is 1. *)
Theorem C1_stray_www_defeats_veto (chk : str -> bool) :
  In (lit "google.com") legitimate_domains
  /\ _is_legitimate_domain (lit "awww" ++ "."%char :: lit "google.com") = 0%Z
  /\ field chk (https_anything (lit "awww" ++ "."%char :: lit "google.com"))
           "has_character_substitution" = Some 1%Z
  /\ ~ C1_as_stated chk (lit "google.com") (lit "awww").
Proof.
  split; [vm_compute; tauto|].
  split; [vm_compute; reflexivity|].
  split; [vm_compute; reflexivity|].
  intros [_ [_ [_ [E _]]]]. vm_compute in E. discriminate.
Qed.

Lemma replace_aux_skip (old new : str) (s : str) :
  forall skip, (skip <= List.length s)%nat ->
    replace_aux old new skip s = replace_aux old new 0 (skipn skip s).
Proof.
  induction s as [|c s IH]; intros skip Hskip.
  - simpl in Hskip. assert (skip = 0%nat) as -> by lia. reflexivity.
  - destruct skip as [|k]; [reflexivity|].
    simpl in Hskip. cbn [replace_aux skipn]. apply IH. lia.
Qed.

Lemma replace_no_occurrence (old new s : str) :
  ~ occurs_in old s -> replace s old new = s.
Proof.
  unfold replace. induction s as [|c s IH]; intros Hs; [reflexivity|].
  cbn [replace_aux].
  destruct (startswith (c :: s) old) eqn:E.
  - exfalso. apply Hs. apply startswith_iff in E. destruct E as [r E].
    exists [], r. exact E.
  - rewrite IH; [reflexivity|].
    intros [a [b H]]. apply Hs. exists (c :: a), b. rewrite H. reflexivity.
Qed.

(** Where [www.] occurs at the front of the host only, the code does what
    the specification says. *)
Lemma whitelist_agrees_without_stray_www (h : str) :
  ~ occurs_in (lit "www.") (strip_leading_www h) ->
  (_is_legitimate_domain h = 1%Z <-> is_legitimate_spec h = true).
Proof.
  intros Hw.
  assert (Hc : replace h (lit "www.") (lit "") = strip_leading_www h).
  { unfold strip_leading_www in *.
    destruct (startswith h (lit "www.")) eqn:E.
    - destruct h as [|c h]; [discriminate|].
      unfold replace. cbn [replace_aux]. rewrite E. cbn [app].
      apply startswith_length in E. simpl in E.
      rewrite replace_aux_skip by (simpl; lia).
      apply (replace_no_occurrence (lit "www.") (lit "")). exact Hw.
    - apply replace_no_occurrence. exact Hw. }
  unfold _is_legitimate_domain, is_legitimate_spec. rewrite Hc.
  destruct (mem (strip_leading_www h) legitimate_domains) eqn:Em.
  - split; [intros _ | reflexivity].
    apply existsb_exists. exists (strip_leading_www h).
    apply mem_iff in Em. split; [exact Em|].
    rewrite str_eqb_refl. reflexivity.
  - destruct (existsb _ legitimate_domains);
      split; intros H; try reflexivity; discriminate.
Qed.

(** The shortener check on such hosts is membership of the host without its
    leading [www.]. *)
Lemma shortener_agrees_without_stray_www (h : str) :
  ~ occurs_in (lit "www.") (strip_leading_www h) ->
  (_is_url_shortener h = 1%Z <-> In (strip_leading_www h) url_shorteners).
Proof.
  intros Hw.
  assert (Hc : replace h (lit "www.") (lit "") = strip_leading_www h).
  { unfold strip_leading_www in *.
    destruct (startswith h (lit "www.")) eqn:E.
    - destruct h as [|c h]; [discriminate|].
      unfold replace. cbn [replace_aux]. rewrite E. cbn [app].
      apply startswith_length in E. simpl in E.
      rewrite replace_aux_skip by (simpl; lia).
      apply (replace_no_occurrence (lit "www.") (lit "")). exact Hw.
    - apply replace_no_occurrence. exact Hw. }
  unfold _is_url_shortener. rewrite Hc, <- mem_iff.
  destruct (mem (strip_leading_www h) url_shorteners);
    split; intros H; try reflexivity; discriminate.
Qed.

(** C2, the failing inputs.  The whitelist check removes every [www.] of the
    host, not a leading one only: [google.www.com] passes the check although,
    with a leading [www.] stripped, it neither is an entry nor ends with a dot
    and an entry; [awww.google.com] ends with [.google.com] and fails the
    check.  Containment alone does not whitelist
    [evil-google.com.evil.tk]. *)
Theorem C2_whitelist_removes_every_www :
  (_is_legitimate_domain (lit "google.www.com") = 1%Z
   /\ is_legitimate_spec (lit "google.www.com") = false)
  /\ (_is_legitimate_domain (lit "awww.google.com") = 0%Z
      /\ is_legitimate_spec (lit "awww.google.com") = true)
  /\ _is_legitimate_domain (lit "evil-google.com.evil.tk") = 0%Z.
Proof. vm_compute. repeat split. Qed.

(** * Further properties of the extractor *)

(** ** The pattern matcher against the language of a pattern *)

Lemma nullable_Lang (r : Re.regex) : Re.nullable r = true <-> Re.Lang r [].
Proof.
  induction r as [| |f|r1 IH1 r2 IH2|r1 IH1 r2 IH2|r1 IH1]; simpl.
  - split; [discriminate | intros H; inversion H].
  - split; [intros _; constructor | reflexivity].
  - split; [discriminate | intros H; inversion H].
  - rewrite andb_true_iff, IH1, IH2. split.
    + intros [H1 H2]. exact (Re.LSeq _ _ [] [] H1 H2).
    + intros H. inversion H as [| |a b s1 s2 H1 H2 E1 E2| | | |]; subst.
      apply app_eq_nil in E2. destruct E2; subst. auto.
  - rewrite orb_true_iff, IH1, IH2. split.
    + intros [H | H]; [apply Re.LAltL | apply Re.LAltR]; exact H.
    + intros H. inversion H; subst; auto.
  - split; [intros _; constructor | reflexivity].
Qed.

Lemma Lang_Seq_inv (r1 r2 : Re.regex) (s : str) :
  Re.Lang (Re.Seq r1 r2) s <->
  exists s1 s2, s = s1 ++ s2 /\ Re.Lang r1 s1 /\ Re.Lang r2 s2.
Proof.
  split.
  - intros H. inversion H; subst. eauto.
  - intros [s1 [s2 [-> [H1 H2]]]]. constructor; assumption.
Qed.

Lemma Lang_Alt_inv (r1 r2 : Re.regex) (s : str) :
  Re.Lang (Re.Alt r1 r2) s <-> Re.Lang r1 s \/ Re.Lang r2 s.
Proof.
  split.
  - intros H. inversion H; subst; auto.
  - intros [H | H]; [apply Re.LAltL | apply Re.LAltR]; exact H.
Qed.

Lemma Lang_Void (s : str) : ~ Re.Lang Re.Void s.
Proof. intros H. inversion H. Qed.

Lemma Lang_Eps (s : str) : Re.Lang Re.Eps s <-> s = [].
Proof.
  split; [intros H; inversion H; reflexivity | intros ->; constructor].
Qed.

Lemma Lang_Chr (f : ascii -> bool) (s : str) :
  Re.Lang (Re.Chr f) s <-> exists c, s = [c] /\ f c = true.
Proof.
  split.
  - intros H. inversion H; subst. eauto.
  - intros [c [-> H]]. constructor. exact H.
Qed.

Lemma Lang_mkSeq (r1 r2 : Re.regex) (s : str) :
  Re.Lang (Re.mkSeq r1 r2) s <-> Re.Lang (Re.Seq r1 r2) s.
Proof.
  destruct r1; simpl; try tauto.
  - split; [intros H; inversion H|].
    rewrite Lang_Seq_inv. intros [s1 [s2 [_ [H _]]]]. inversion H.
  - rewrite Lang_Seq_inv. split.
    + intros H. exists [], s. repeat split; [constructor | exact H].
    + intros [s1 [s2 [-> [H1 H2]]]]. apply Lang_Eps in H1. subst. exact H2.
Qed.

Lemma Lang_mkAlt (r1 r2 : Re.regex) (s : str) :
  Re.Lang (Re.mkAlt r1 r2) s <-> Re.Lang (Re.Alt r1 r2) s.
Proof.
  rewrite Lang_Alt_inv.
  destruct r1, r2; simpl; rewrite ?Lang_Alt_inv;
    pose proof (Lang_Void s); tauto.
Qed.

Lemma Lang_Star_cons (r : Re.regex) (c : ascii) (s : str) :
  Re.Lang (Re.Star r) (c :: s) ->
  exists s1 s2, s = s1 ++ s2 /\ Re.Lang r (c :: s1) /\ Re.Lang (Re.Star r) s2.
Proof.
  intros H. remember (Re.Star r) as r' eqn:Er. remember (c :: s) as w eqn:Ew.
  induction H as [| | | | | |r0 s1 s2 H1 _ H2 IH2]; try discriminate.
  inversion Er; subst r0.
  destruct s1 as [|c' s1].
  - simpl in Ew. apply IH2; [reflexivity | exact Ew].
  - simpl in Ew. inversion Ew; subst. eauto.
Qed.

(** The derivative by [c] matches what the pattern matches behind [c]. *)
Lemma deriv_Lang (c : ascii) (r : Re.regex) :
  forall s, Re.Lang (Re.deriv c r) s <-> Re.Lang r (c :: s).
Proof.
  induction r as [| |f|r1 IH1 r2 IH2|r1 IH1 r2 IH2|r1 IH1]; intros s; simpl.
  - split; intros H; inversion H.
  - split; intros H; inversion H.
  - rewrite Lang_Chr. destruct (f c) eqn:E.
    + rewrite Lang_Eps. split.
      * intros ->. exists c. auto.
      * intros [c' [H _]]. inversion H. reflexivity.
    + split; [intros H; inversion H|].
      intros [c' [H H']]. inversion H; subst. congruence.
  - rewrite Lang_mkAlt, Lang_Alt_inv, Lang_mkSeq, !Lang_Seq_inv. split.
    + intros [[s1 [s2 [-> [H1 H2]]]] | H].
      * exists (c :: s1), s2. rewrite <- IH1. auto.
      * destruct (Re.nullable r1) eqn:En; [|inversion H].
        exists [], (c :: s). rewrite <- nullable_Lang, <- IH2. auto.
    + intros [s1 [s2 [E [H1 H2]]]]. destruct s1 as [|c' s1].
      * simpl in E. subst s2. right.
        apply nullable_Lang in H1. rewrite H1. apply IH2. exact H2.
      * simpl in E. inversion E; subst. left.
        exists s1, s2. rewrite IH1. auto.
  - rewrite Lang_mkAlt, !Lang_Alt_inv, IH1, IH2. tauto.
  - rewrite Lang_mkSeq, Lang_Seq_inv. split.
    + intros [s1 [s2 [-> [H1 H2]]]]. apply IH1 in H1.
      exact (Re.LStarS r1 (c :: s1) s2 H1 H2).
    + intros H. apply Lang_Star_cons in H.
      destruct H as [s1 [s2 [-> [H1 H2]]]].
      exists s1, s2. rewrite IH1. auto.
Qed.

(** [re.match] with a final [$]. *)
Lemma matches_dollar_iff (s : str) :
  forall r, Re.matches_dollar r s = true <->
            Re.Lang r s \/ exists s', s = s' ++ ["010"%char] /\ Re.Lang r s'.
Proof.
  induction s as [|c s IH]; intros r; cbn [Re.matches_dollar].
  - rewrite nullable_Lang. split; [auto|].
    intros [H | [s' [E _]]]; [exact H|]. destruct s'; discriminate.
  - rewrite orb_true_iff, andb_true_iff, nullable_Lang, str_eqb_eq, IH.
    split.
    + intros [[H E] | [H | [s' [-> H]]]].
      * right. exists []. split; [exact E | exact H].
      * left. apply deriv_Lang. exact H.
      * right. exists (c :: s'). split; [reflexivity|].
        apply deriv_Lang. exact H.
    + intros [H | [s' [E H]]].
      * right. left. apply deriv_Lang. exact H.
      * destruct s' as [|c' s'].
        -- left. split; [exact H | exact E].
        -- simpl in E. inversion E; subst. right. right.
           exists s'. split; [reflexivity|]. apply deriv_Lang. exact H.
Qed.

(** [re.match] without [$]: a prefix is in the language. *)
Lemma matches_prefix_iff (s : str) :
  forall r, Re.matches_prefix r s = true <->
            exists a b, s = a ++ b /\ Re.Lang r a.
Proof.
  induction s as [|c s IH]; intros r; simpl.
  - rewrite nullable_Lang. split.
    + intros H. exists [], []. auto.
    + intros [a [b [E H]]]. symmetry in E. apply app_eq_nil in E.
      destruct E; subst. exact H.
  - rewrite orb_true_iff, nullable_Lang, IH. split.
    + intros [H | [a [b [-> H]]]].
      * exists [], (c :: s). auto.
      * exists (c :: a), b. apply deriv_Lang in H. auto.
    + intros [a [b [E H]]]. destruct a as [|c' a].
      * left. exact H.
      * simpl in E. inversion E; subst. right.
        exists a, b. rewrite deriv_Lang. auto.
Qed.

(** [re.search]: a part of the string is in the language. *)
Lemma search_iff (r : Re.regex) (s : str) :
  Re.search r s = true <->
  exists a m b, s = a ++ m ++ b /\ Re.Lang r m.
Proof.
  induction s as [|c s IH]; simpl.
  - rewrite nullable_Lang. split.
    + intros H. exists [], [], []. auto.
    + intros [a [m [b [E H]]]]. symmetry in E.
      apply app_eq_nil in E. destruct E as [_ E].
      apply app_eq_nil in E. destruct E; subst. exact H.
  - rewrite orb_true_iff, IH.
    change (Re.nullable r || Re.matches_prefix (Re.deriv c r) s)%bool
      with (Re.matches_prefix r (c :: s)).
    rewrite matches_prefix_iff. split.
    + intros [[m [b [E H]]] | [a [m [b [-> H]]]]].
      * exists [], m, b. auto.
      * exists (c :: a), m, b. auto.
    + intros [a [m [b [E H]]]]. destruct a as [|c' a].
      * left. exists m, b. auto.
      * simpl in E. inversion E; subst. right. exists a, m, b. auto.
Qed.

(** ** [_has_ip_address] *)

Lemma Lang_rep_class (f : ascii -> bool) (n : nat) :
  forall a, Re.Lang (Re.rep n (Re.Chr f)) a <->
            List.length a = n /\ forallb f a = true.
Proof.
  induction n as [|n IH]; intros a; cbn [Re.rep].
  - rewrite Lang_Eps. split.
    + intros ->. auto.
    + intros [H _]. destruct a; [reflexivity | discriminate].
  - rewrite Lang_Seq_inv. split.
    + intros [s1 [s2 [-> [H1 H2]]]]. apply Lang_Chr in H1.
      destruct H1 as [c [-> Hc]]. apply IH in H2. destruct H2 as [H2 H3].
      simpl. rewrite Hc, H2, H3. auto.
    + intros [Hl Hf]. destruct a as [|c a]; [discriminate|].
      simpl in Hl, Hf. apply andb_true_iff in Hf. destruct Hf as [Hc Hf].
      exists [c], a. repeat split.
      * constructor. exact Hc.
      * apply IH. split; [lia | exact Hf].
Qed.

Lemma Lang_upto_class (f : ascii -> bool) (n : nat) :
  forall a, Re.Lang (Re.upto n (Re.Chr f)) a <->
            (List.length a <= n)%nat /\ forallb f a = true.
Proof.
  induction n as [|n IH]; intros a; cbn [Re.upto].
  - rewrite Lang_Eps. split.
    + intros ->. auto.
    + intros [H _]. destruct a; [reflexivity | simpl in H; lia].
  - rewrite Lang_Alt_inv, Lang_Eps, Lang_Seq_inv. split.
    + intros [-> | [s1 [s2 [-> [H1 H2]]]]].
      * simpl. split; [lia | reflexivity].
      * apply Lang_Chr in H1. destruct H1 as [c [-> Hc]].
        apply IH in H2. destruct H2 as [H2 H3].
        simpl. rewrite Hc, H3. split; [lia | reflexivity].
    + intros [Hl Hf]. destruct a as [|c a]; [left; reflexivity | right].
      simpl in Hl, Hf. apply andb_true_iff in Hf. destruct Hf as [Hc Hf].
      exists [c], a. repeat split.
      * constructor. exact Hc.
      * apply IH. split; [lia | exact Hf].
Qed.

Lemma Lang_octet (a : str) :
  Re.Lang (Re.rep_range 1 3 Re.digit) a <-> octet_digits a.
Proof.
  unfold Re.rep_range, Re.digit, octet_digits. rewrite Lang_Seq_inv. split.
  - intros [s1 [s2 [-> [H1 H2]]]].
    apply Lang_rep_class in H1. apply Lang_upto_class in H2.
    destruct H1 as [L1 F1], H2 as [L2 F2].
    rewrite length_app, forallb_app, F1, F2. simpl in L2. split; [lia | auto].
  - intros [Hl Hf]. destruct a as [|c a]; [simpl in Hl; lia|].
    simpl in Hl, Hf. apply andb_true_iff in Hf. destruct Hf as [Hc Hf].
    exists [c], a. repeat split.
    + apply Lang_rep_class. simpl. rewrite Hc. auto.
    + apply Lang_upto_class. simpl. split; [lia | exact Hf].
Qed.

Lemma Lang_octet_dot (s : str) :
  Re.Lang (Re.Seq (Re.rep_range 1 3 Re.digit) (Re.chr ".")) s <->
  exists a, octet_digits a /\ s = a ++ ["."%char].
Proof.
  rewrite Lang_Seq_inv. split.
  - intros [s1 [s2 [-> [H1 H2]]]]. apply Lang_octet in H1.
    apply Lang_Chr in H2. destruct H2 as [c [-> Hc]].
    apply Ascii.eqb_eq in Hc. subst c. eauto.
  - intros [a [Ha ->]]. exists a, ["."%char]. repeat split.
    + apply Lang_octet, Ha.
    + constructor. apply Ascii.eqb_refl.
Qed.

Lemma Lang_ip_pattern (h : str) : Re.Lang ip_pattern h <-> dotted_quad h.
Proof.
  unfold ip_pattern, dotted_quad. cbn [Re.rep]. split.
  - intros H.
    apply Lang_Seq_inv in H. destruct H as [t [d [-> [H Hd]]]].
    apply Lang_Seq_inv in H. destruct H as [a' [t1 [-> [Ha H]]]].
    apply Lang_Seq_inv in H. destruct H as [b' [t2 [-> [Hb H]]]].
    apply Lang_Seq_inv in H. destruct H as [c' [t3 [-> [Hc H]]]].
    apply Lang_Eps in H. subst t3.
    apply Lang_octet_dot in Ha, Hb, Hc. apply Lang_octet in Hd.
    destruct Ha as [a [Ha ->]], Hb as [b [Hb ->]], Hc as [c [Hc ->]].
    exists a, b, c, d.
    split; [exact Ha|]. split; [exact Hb|]. split; [exact Hc|].
    split; [exact Hd|].
    rewrite app_nil_r, <- !app_assoc. reflexivity.
  - intros [a [b [c [d [Ha [Hb [Hc [Hd ->]]]]]]]].
    replace (a ++ "."%char :: b ++ "."%char :: c ++ "."%char :: d)
      with (((a ++ ["."%char]) ++ (b ++ ["."%char]) ++ (c ++ ["."%char]) ++ [])
              ++ d)
      by (rewrite app_nil_r, <- !app_assoc; reflexivity).
    constructor; [|apply Lang_octet, Hd].
    constructor; [apply Lang_octet_dot; eauto|].
    constructor; [apply Lang_octet_dot; eauto|].
    constructor; [apply Lang_octet_dot; eauto | constructor].
Qed.

Lemma has_ip_address_shape (h : str) :
  _has_ip_address h = 1%Z ->
  dotted_quad h \/ exists h', h = h' ++ ["010"%char] /\ dotted_quad h'.
Proof.
  unfold _has_ip_address.
  destruct (Re.matches_dollar ip_pattern h) eqn:E; [intros _ | discriminate].
  apply matches_dollar_iff in E. destruct E as [E | [h' [-> E]]].
  - left. apply Lang_ip_pattern, E.
  - right. exists h'. split; [reflexivity | apply Lang_ip_pattern, E].
Qed.

(** X3.  On hosts over code points below 256, [_has_ip_address] returns 1
    exactly on four dot-separated groups of one to three digits [0] to [9],
    with or without one newline behind them, and 0 on every other such host;
    the groups are not checked against 255. *)
Theorem has_ip_address_dotted_quad (h : str) :
  (_has_ip_address h = 1%Z <->
   dotted_quad h \/ exists h', h = h' ++ ["010"%char] /\ dotted_quad h')
  /\ (_has_ip_address h = 1%Z \/ _has_ip_address h = 0%Z).
Proof.
  split; [|apply has_ip_cases].
  split; [apply has_ip_address_shape|].
  intros H. unfold _has_ip_address.
  assert (E : Re.matches_dollar ip_pattern h = true).
  { apply matches_dollar_iff.
    destruct H as [H | [h' [-> H]]].
    - left. apply Lang_ip_pattern, H.
    - right. exists h'. split; [reflexivity | apply Lang_ip_pattern, H]. }
  rewrite E. reflexivity.
Qed.

(** ** Splitting a host at its dots *)

Lemma split_char_cons (c x : ascii) (cur s : str) :
  split_aux [c] 0 cur (x :: s) =
  if Ascii.eqb c x then rev cur :: split_aux [c] 0 [] s
  else split_aux [c] 0 (x :: cur) s.
Proof.
  cbn [split_aux startswith]. rewrite andb_true_r. reflexivity.
Qed.

Lemma split_char_length (c : ascii) (s : str) :
  forall cur, List.length (split_aux [c] 0 cur s) = S (count c s).
Proof.
  unfold count. induction s as [|x s IH]; intros cur; [reflexivity|].
  rewrite split_char_cons. cbn [filter].
  destruct (Ascii.eqb c x); simpl; rewrite IH; reflexivity.
Qed.

Lemma split_char_app (c : ascii) (a b : str) :
  forall cur, split_aux [c] 0 cur (a ++ c :: b)
              = split_aux [c] 0 cur a ++ split_aux [c] 0 [] b.
Proof.
  induction a as [|x a IH]; intros cur.
  - simpl app. rewrite split_char_cons, Ascii.eqb_refl. reflexivity.
  - change ((x :: a) ++ c :: b) with (x :: (a ++ c :: b)).
    rewrite !split_char_cons.
    destruct (Ascii.eqb c x); rewrite IH; reflexivity.
Qed.

Lemma split_char_without (c : ascii) (s : str) :
  ~ In c s -> forall cur, split_aux [c] 0 cur s = [rev cur ++ s].
Proof.
  induction s as [|x s IH]; intros Hs cur.
  - simpl. rewrite app_nil_r. reflexivity.
  - rewrite split_char_cons. destruct (Ascii.eqb c x) eqn:E.
    + apply Ascii.eqb_eq in E. subst. exfalso. apply Hs. left. reflexivity.
    + rewrite IH by (intros H; apply Hs; right; exact H).
      simpl. rewrite <- app_assoc. reflexivity.
Qed.

Lemma nth_second_to_last (ps : list str) (l t : str) :
  (List.length (ps ++ [l; t]) <? 2)%nat = false
  /\ nth (List.length (ps ++ [l; t]) - 2) (ps ++ [l; t]) [] = l.
Proof.
  rewrite length_app. simpl List.length.
  split; [apply Nat.ltb_ge; lia|].
  replace (List.length ps + 2 - 2)%nat with (List.length ps + 0)%nat by lia.
  rewrite app_nth2_plus. reflexivity.
Qed.

Lemma split_second_level (h l : str) :
  second_level_label h l ->
  exists ps t, split h (lit ".") = ps ++ [l; t].
Proof.
  intros [t [Hl [Ht [-> | [pre ->]]]]]; unfold split;
    change (lit ".") with ["."%char].
  - exists [], t.
    rewrite split_char_app, (split_char_without _ l Hl),
      (split_char_without _ t Ht). reflexivity.
  - exists (split_aux ["."%char] 0 [] pre), t.
    rewrite !split_char_app, (split_char_without _ l Hl),
      (split_char_without _ t Ht). reflexivity.
Qed.

(** The label that [_detect_character_substitution] examines. *)
Lemma main_domain_second_level (h l : str) :
  second_level_label h l ->
  (List.length (split h (lit ".")) <? 2)%nat = false
  /\ nth (List.length (split h (lit ".")) - 2) (split h (lit ".")) [] = l.
Proof.
  intros H. destruct (split_second_level h l H) as [ps [t E]].
  rewrite E. apply nth_second_to_last.
Qed.

(** X2.  [_has_excessive_subdomains] returns 1 exactly when the host has at
    least five dots, that is more than five labels, empty labels counted. *)
Theorem excessive_subdomains_counts_dots (h : str) :
  (_has_excessive_subdomains h = 1%Z <-> (5 <= count "." h)%nat)
  /\ (_has_excessive_subdomains h = 0%Z <-> (count "." h < 5)%nat).
Proof.
  unfold _has_excessive_subdomains, split. change (lit ".") with ["."%char].
  rewrite split_char_length.
  destruct (5 <? S (count "." h))%nat eqn:E.
  - apply Nat.ltb_lt in E. split; split; intros H;
      try reflexivity; try discriminate; lia.
  - apply Nat.ltb_ge in E. split; split; intros H;
      try reflexivity; try discriminate; lia.
Qed.

(** ** [_detect_character_substitution] *)

Lemma lower_app (a b : str) : lower (a ++ b) = lower a ++ lower b.
Proof. apply map_app. Qed.

Lemma occurs_in_lower (w l : str) :
  occurs_in w l -> occurs_in (lower w) (lower l).
Proof.
  intros [a [b ->]]. exists (lower a), (lower b).
  rewrite !lower_app. reflexivity.
Qed.

Lemma occurs_in_trans (m w l : str) :
  occurs_in m w -> occurs_in w l -> occurs_in m l.
Proof.
  intros [a [b ->]] [a' [b' ->]]. exists (a' ++ a), (b ++ b').
  rewrite <- !app_assoc. reflexivity.
Qed.

Lemma exists_pattern_iff (s : str) :
  existsb (fun pattern => Re.search_ignorecase pattern s) suspicious_patterns
  = true
  <-> exists pattern m, In pattern suspicious_patterns
                        /\ occurs_in m (lower s) /\ Re.Lang pattern m.
Proof.
  rewrite existsb_exists. unfold Re.search_ignorecase. split.
  - intros [p [Hp H]]. apply search_iff in H.
    destruct H as [a [m [b [E H]]]]. exists p, m.
    split; [exact Hp|]. split; [exists a, b; exact E | exact H].
  - intros [p [m [Hp [[a [b E]] H]]]]. exists p. split; [exact Hp|].
    apply search_iff. exists a, m, b. auto.
Qed.

(** What the detector returns on a host with at least two labels. *)
Lemma character_substitution_iff (h l : str) :
  second_level_label h l ->
  (_detect_character_substitution h = 1%Z
   <-> ~ legitimate h
       /\ Re.matches_prefix numeric_prefix_pattern h = false
       /\ exists pattern m, In pattern suspicious_patterns
                            /\ occurs_in m (lower l) /\ Re.Lang pattern m).
Proof.
  intros Hl. destruct (main_domain_second_level h l Hl) as [Hlen Hnth].
  unfold _detect_character_substitution.
  rewrite Hlen, Hnth, <- exists_pattern_iff, <- truth_legitimate.
  destruct (truth (_is_legitimate_domain h)).
  - split; [discriminate | intros [H _]; exfalso; apply H; reflexivity].
  - destruct (Re.matches_prefix numeric_prefix_pattern h).
    + split; [discriminate | intros [_ [H _]]; discriminate].
    + destruct (existsb _ suspicious_patterns).
      * split; [intros _ | reflexivity].
        split; [discriminate | split; reflexivity].
      * split; [discriminate | intros [_ [_ H]]; discriminate].
Qed.

(** X6.  On a host over code points below 256 with at least two labels,
    has_character_substitution depends on the second-to-last label only: it
    is 1 exactly when the host is not whitelisted, does not start with a
    numbered-subdomain prefix, and a part of that label, lower-cased, is in
    the language of one of the seven look-alike patterns.  Such a host
    without a dot gets 0. *)
Theorem character_substitution_second_level (h : str) :
  (forall l, second_level_label h l ->
     (_detect_character_substitution h = 1%Z
      <-> ~ legitimate h
          /\ Re.matches_prefix numeric_prefix_pattern h = false
          /\ exists pattern m, In pattern suspicious_patterns
                               /\ occurs_in m (lower l)
                               /\ Re.Lang pattern m))
  /\ (~ In "."%char h -> _detect_character_substitution h = 0%Z).
Proof.
  split; [intros l Hl; apply character_substitution_iff, Hl|].
  intros Hh. unfold _detect_character_substitution, split.
  change (lit ".") with ["."%char].
  rewrite (split_char_without _ h Hh). simpl.
  destruct (truth _); [reflexivity|].
  destruct (Re.matches_prefix _ _); reflexivity.
Qed.

Lemma character_substitution_second_level_witness :
  _detect_character_substitution (lit "login.g00gle.co") = 1%Z
  /\ _detect_character_substitution (lit "localhost") = 0%Z.
Proof.
  destruct (character_substitution_second_level (lit "login.g00gle.co"))
    as [H _].
  destruct (character_substitution_second_level (lit "localhost")) as [_ H0].
  split.
  - apply (H (lit "g00gle")).
    + exists (lit "co"). split; [vm_compute; intuition discriminate|].
      split; [vm_compute; intuition discriminate|].
      right. exists (lit "login"). reflexivity.
    + split; [vm_compute; discriminate|]. split; [vm_compute; reflexivity|].
      exists (Re.seqs [Re.chr "g"; Re.rep 2 (Re.cls "o0@"); Re.word "gle"]),
        (lit "g00gle").
      split; [vm_compute; tauto|].
      split; [exists [], []; reflexivity|].
      assert (E : Re.matches_dollar
                    (Re.seqs [Re.chr "g"; Re.rep 2 (Re.cls "o0@");
                              Re.word "gle"]) (lit "g00gle") = true)
        by (vm_compute; reflexivity).
      apply matches_dollar_iff in E. destruct E as [E | [s' [E _]]];
        [exact E|].
      exfalso. revert E. clear.
      destruct s' as [|? [|? [|? [|? [|? [|? [|? ?]]]]]]]; discriminate.
  - apply H0. vm_compute. intuition discriminate.
Defined.

(** X7.  The look-alike patterns match the brand names as they are spelt: a
    host that is not whitelisted and has no numbered-subdomain prefix gets
    has_character_substitution = 1 as soon as its second-to-last label
    contains paypal, google, microsoft, facebook or netflix. *)
Theorem plain_brand_name_is_flagged (h l w : str) :
  second_level_label h l ->
  In w plain_brand_names -> occurs_in w l ->
  ~ legitimate h ->
  Re.matches_prefix numeric_prefix_pattern h = false ->
  _detect_character_substitution h = 1%Z.
Proof.
  intros Hl Hw Ho Hn Hp.
  apply (character_substitution_iff h l Hl).
  split; [exact Hn|]. split; [exact Hp|].
  assert (Hall : forallb
                   (fun w => (str_eqb (lower w) w
                              && existsb (fun p => Re.matches_dollar p w)
                                         suspicious_patterns)%bool)
                   plain_brand_names = true) by (vm_compute; reflexivity).
  rewrite forallb_forall in Hall. specialize (Hall w Hw).
  apply andb_true_iff in Hall. destruct Hall as [Hlow Hex].
  apply str_eqb_eq in Hlow. apply existsb_exists in Hex.
  destruct Hex as [p [Hin Hm]]. apply matches_dollar_iff in Hm.
  apply occurs_in_lower in Ho. rewrite Hlow in Ho.
  destruct Hm as [Hm | [s' [E Hm]]].
  - exists p, w. auto.
  - exists p, s'. split; [exact Hin|]. split; [|exact Hm].
    apply (occurs_in_trans s' w); [|exact Ho].
    exists [], ["010"%char]. exact E.
Qed.

Lemma plain_brand_name_is_flagged_witness :
  _detect_character_substitution (lit "login.microsoftonline.com") = 1%Z.
Proof.
  apply (plain_brand_name_is_flagged (lit "login.microsoftonline.com")
                                     (lit "microsoftonline") (lit "microsoft")).
  - exists (lit "com"). split; [vm_compute; intuition discriminate|].
    split; [vm_compute; intuition discriminate|].
    right. exists (lit "login"). reflexivity.
  - vm_compute. tauto.
  - exists [], (lit "online"). reflexivity.
  - vm_compute. discriminate.
  - vm_compute. reflexivity.
Defined.

Lemma Lang_word (s : string) : Re.Lang (Re.word s) (lit s).
Proof.
  unfold Re.word, lit. induction (list_ascii_of_string s) as [|c l IH].
  - constructor.
  - simpl. apply (Re.LSeq _ _ [c] l); [|exact IH].
    constructor. apply Ascii.eqb_refl.
Qed.

Lemma Lang_alts (rs : list Re.regex) (r : Re.regex) (s : str) :
  In r rs -> Re.Lang r s -> Re.Lang (Re.alts rs) s.
Proof.
  unfold Re.alts. induction rs as [|r' rs IH]; intros Hin H; [destruct Hin|].
  simpl. destruct Hin as [-> | Hin].
  - apply Re.LAltL. exact H.
  - apply Re.LAltR. apply IH; assumption.
Qed.

Lemma Lang_Star_class (f : ascii -> bool) (s : str) :
  forallb f s = true -> Re.Lang (Re.Star (Re.Chr f)) s.
Proof.
  induction s as [|c s IH]; intros H; [constructor|].
  simpl in H. apply andb_true_iff in H. destruct H as [Hc H].
  apply (Re.LStarS _ [c] s); [constructor; exact Hc | apply IH, H].
Qed.

(** X12.  A host that starts with web, app, mail, cdn, api, server, host or
    node, then one or more digits and a dot, gets
    has_character_substitution = 0 whatever follows the dot. *)
Theorem numbered_subdomain_is_exempt (w ds rest : str) :
  In w numbered_prefix_words ->
  ds <> [] -> forallb is_ascii_digit ds = true ->
  _detect_character_substitution (w ++ ds ++ "."%char :: rest) = 0%Z.
Proof.
  intros Hw Hne Hds. unfold _detect_character_substitution.
  destruct (truth _); [reflexivity|].
  assert (E : Re.matches_prefix numeric_prefix_pattern
                                (w ++ ds ++ "."%char :: rest) = true).
  { apply matches_prefix_iff. exists (w ++ ds ++ ["."%char]), rest.
    split; [rewrite <- !app_assoc; reflexivity|].
    unfold numeric_prefix_pattern. cbn [Re.seqs fold_right].
    constructor.
    - unfold numbered_prefix_words in Hw. apply in_map_iff in Hw.
      destruct Hw as [x [<- Hx]].
      apply (Lang_alts _ (Re.word x)); [|apply Lang_word].
      apply in_map. exact Hx.
    - constructor.
      + destruct ds as [|c ds]; [congruence|].
        simpl in Hds. apply andb_true_iff in Hds. destruct Hds as [Hc Hds].
        unfold Re.plus, Re.rep_min, Re.digit. cbn [Re.rep].
        apply (Re.LSeq _ _ [c] ds).
        * apply (Re.LSeq _ _ [c] []); constructor. exact Hc.
        * apply Lang_Star_class, Hds.
      + apply (Re.LSeq _ _ ["."%char] []); constructor.
        apply Ascii.eqb_refl. }
  rewrite E. reflexivity.
Qed.

Lemma numbered_subdomain_is_exempt_witness :
  _detect_character_substitution (lit "web1.g00gle-login.co") = 0%Z
  /\ _detect_character_substitution (lit "g00gle-login.co") = 1%Z.
Proof.
  split; [|vm_compute; reflexivity].
  apply (numbered_subdomain_is_exempt (lit "web") (lit "1")
                                      (lit "g00gle-login.co")).
  - vm_compute. tauto.
  - discriminate.
  - reflexivity.
Defined.

(** ** [_detect_brand_spoofing] *)

Lemma truth_suspicious_tld (h : str) :
  truth (_detect_suspicious_tld h) = true <-> _detect_suspicious_tld h = 1%Z.
Proof.
  destruct (suspicious_tld_cases h) as [E | E]; rewrite E;
    split; intros H; try reflexivity; discriminate.
Qed.

Lemma impersonates_iff (h brand : str) :
  impersonates_b h brand = true <-> impersonates h brand.
Proof.
  unfold impersonates_b, impersonates.
  rewrite andb_true_iff, str_in_iff.
  destruct (brand_domains legitimate_brand_domains brand) as [domains|].
  - rewrite andb_true_iff, negb_true_iff, orb_true_iff, truth_suspicious_tld.
    split.
    + intros [Ho [Hd Hi]]. split; [exact Ho|]. split.
      * exists domains. split; [reflexivity|]. intros d Hin.
        split.
        -- intros ->. rewrite <- not_true_iff_false in Hd. apply Hd.
           apply existsb_exists. exists d. split; [exact Hin|].
           rewrite str_eqb_refl. reflexivity.
        -- intros He. rewrite <- not_true_iff_false in Hd. apply Hd.
           apply existsb_exists. exists d. split; [exact Hin|].
           apply orb_true_iff. right. apply endswith_iff, He.
      * destruct Hi as [Hi | Hi]; [left | right; exact Hi].
        apply existsb_exists in Hi. destruct Hi as [i [Hin Hi]].
        exists i. split; [exact Hin | apply str_in_iff, Hi].
    + intros [Ho [[ds [E Hd]] Hi]]. inversion E; subst ds.
      split; [exact Ho|]. split.
      * apply not_true_iff_false. intros Hex.
        apply existsb_exists in Hex. destruct Hex as [d [Hin Hm]].
        destruct (Hd d Hin) as [H1 H2].
        apply orb_true_iff in Hm. destruct Hm as [Hm | Hm].
        -- apply str_eqb_eq in Hm. contradiction.
        -- apply endswith_iff in Hm. contradiction.
      * destruct Hi as [[i [Hin Hi]] | Hi]; [left | right; exact Hi].
        apply existsb_exists. exists i.
        split; [exact Hin | apply str_in_iff, Hi].
  - split; [intros [_ H]; discriminate|].
    intros [_ [[ds [E _]] _]]. discriminate.
Qed.

Lemma brand_loop_step (h brand : str) (rest : list str) :
  brand_loop h (brand :: rest)
  = if impersonates_b h brand then 1%Z else brand_loop h rest.
Proof.
  unfold impersonates_b. cbn [brand_loop].
  destruct (str_in brand h); [|reflexivity].
  destruct (brand_domains legitimate_brand_domains brand); [|reflexivity].
  destruct (existsb _ l); [reflexivity|].
  destruct (existsb _ (suspicious_indicators brand)); [reflexivity|].
  destruct (truth (_detect_suspicious_tld h)); reflexivity.
Qed.

Lemma brand_loop_iff (h : str) (brands : list str) :
  (brand_loop h brands = 1%Z
   <-> exists brand, In brand brands /\ impersonates h brand)
  /\ (brand_loop h brands = 1%Z \/ brand_loop h brands = 0%Z).
Proof.
  induction brands as [|b rest [IH1 IH2]].
  - split; [|right; reflexivity].
    split; [discriminate | intros [b [[] _]]].
  - rewrite brand_loop_step. destruct (impersonates_b h b) eqn:E.
    + split; [|left; reflexivity].
      split; [intros _ | reflexivity].
      exists b. split; [left; reflexivity | apply impersonates_iff, E].
    + split; [|exact IH2]. rewrite IH1. split.
      * intros [b' [Hin H]]. exists b'. split; [right; exact Hin | exact H].
      * intros [b' [[<- | Hin] H]].
        -- apply impersonates_iff in H. congruence.
        -- exists b'. auto.
Qed.

Lemma brand_spoofing_needs_brand (h u : str) :
  _detect_brand_spoofing h u = 1%Z ->
  exists brand, In brand brand_keywords /\ occurs_in brand h.
Proof.
  unfold _detect_brand_spoofing.
  destruct (truth (_is_legitimate_domain h)); [discriminate|].
  intros H. apply (brand_loop_iff h brand_keywords) in H.
  destruct H as [brand [Hin [Ho _]]]. eauto.
Qed.

Lemma brand_spoofing_cases (h u : str) :
  _detect_brand_spoofing h u = 1%Z \/ _detect_brand_spoofing h u = 0%Z.
Proof.
  unfold _detect_brand_spoofing.
  destruct (truth _); [right; reflexivity|].
  apply (brand_loop_iff h brand_keywords).
Qed.

(** X5.  has_brand_spoofing is 1 exactly when the host is not whitelisted
    and, for one of the nine brand keywords, the host contains the keyword, is
    none of that brand's own domains nor a subdomain of one, and either
    contains one of the six indicators built from the keyword or ends with a
    suspicious TLD; otherwise it is 0. *)
Theorem brand_spoofing_characterised (h u : str) :
  (_detect_brand_spoofing h u = 1%Z
   <-> ~ legitimate h
       /\ exists brand, In brand brand_keywords /\ impersonates h brand)
  /\ (_detect_brand_spoofing h u = 1%Z \/ _detect_brand_spoofing h u = 0%Z).
Proof.
  unfold _detect_brand_spoofing.
  destruct (brand_loop_iff h brand_keywords) as [H1 H2].
  destruct (truth (_is_legitimate_domain h)) eqn:E.
  - split; [|right; reflexivity].
    apply truth_legitimate in E.
    split; [discriminate | intros [H _]; contradiction].
  - split; [|exact H2]. rewrite H1.
    rewrite <- truth_legitimate, E. intuition discriminate.
Qed.

(** ** Dotted-quad hosts *)

Lemma needs_Lang (Q : ascii -> bool) (r : Re.regex) (s : str) :
  Re.Lang r s -> Re.needs Q r -> existsb Q s = true.
Proof.
  intros H. induction H as [|f c Hc|r1 r2 s1 s2 _ IH1 _ IH2|r1 r2 s _ IH
                            |r1 r2 s _ IH| |r0 s1 s2 _ _ _ _]; simpl.
  - intros [].
  - intros Hn. rewrite (Hn c Hc). reflexivity.
  - rewrite existsb_app, orb_true_iff. intros [Hn | Hn]; auto.
  - intros [Hn _]. auto.
  - intros [_ Hn]. auto.
  - intros [].
  - intros [].
Qed.

Lemma occurs_in_forallb (P : ascii -> bool) (w s : str) :
  occurs_in w s -> forallb P s = true -> forallb P w = true.
Proof.
  intros [a [b ->]]. rewrite !forallb_app, !andb_true_iff. tauto.
Qed.

Lemma forallb_existsb_false (P Q : ascii -> bool) (s : str) :
  (forall c, P c = true -> Q c = false) ->
  forallb P s = true -> existsb Q s = false.
Proof.
  intros HPQ. induction s as [|c s IH]; [reflexivity|]. simpl.
  rewrite andb_true_iff. intros [Hc Hs]. rewrite (HPQ c Hc), IH; auto.
Qed.

Lemma quad_char_not_lower (c : ascii) :
  quad_char c = true -> is_ascii_lower c = false.
Proof.
  destruct c as [[] [] [] [] [] [] [] []]; vm_compute; intros H;
    solve [reflexivity | discriminate].
Qed.

Lemma digit_not_dot (a : str) :
  forallb is_ascii_digit a = true -> ~ In "."%char a.
Proof.
  intros H Hin. rewrite forallb_forall in H. specialize (H _ Hin).
  discriminate.
Qed.

Lemma digits_quad (a : str) :
  forallb is_ascii_digit a = true -> forallb quad_char a = true.
Proof.
  intros H. rewrite forallb_forall in *. intros c Hc.
  unfold quad_char. rewrite (H c Hc). reflexivity.
Qed.

Lemma suspicious_patterns_need_letter (p : Re.regex) :
  In p suspicious_patterns -> Re.needs is_ascii_lower p.
Proof.
  assert (Hchr : forall x, is_ascii_lower x = true ->
                           forall c, Ascii.eqb x c = true ->
                                     is_ascii_lower c = true).
  { intros x Hx c Hc. apply Ascii.eqb_eq in Hc. subst. exact Hx. }
  unfold suspicious_patterns.
  intros [<- | [<- | [<- | [<- | [<- | [<- | [<- | []]]]]]]];
    cbn [Re.seqs fold_right Re.needs Re.word Re.plus Re.rep_min Re.rep
         Re.chr Re.rng lit list_ascii_of_string].
  - left. apply Hchr. reflexivity.
  - left. apply Hchr. reflexivity.
  - left. left. apply Hchr. reflexivity.
  - left. left. left. intros c H. exact H.
  - left. left. left. intros c H. exact H.
  - left. left. apply Hchr. reflexivity.
  - left. apply Hchr. reflexivity.
Qed.

Lemma count_app (c : ascii) (a b : str) :
  count c (a ++ b) = (count c a + count c b)%nat.
Proof. unfold count. rewrite filter_app, length_app. reflexivity. Qed.

Lemma count_cons (c x : ascii) (s : str) :
  count c (x :: s) = ((if Ascii.eqb c x then 1 else 0) + count c s)%nat.
Proof. unfold count. simpl. destruct (Ascii.eqb c x); reflexivity. Qed.

Lemma count_absent (c : ascii) (s : str) : ~ In c s -> count c s = 0%nat.
Proof.
  induction s as [|x s IH]; intros Hs; [reflexivity|].
  rewrite count_cons. destruct (Ascii.eqb c x) eqn:E.
  - apply Ascii.eqb_eq in E. subst. exfalso. apply Hs. left. reflexivity.
  - apply IH. intros H. apply Hs. right. exact H.
Qed.

Lemma lower_char_digit (c : ascii) :
  is_ascii_digit c = true -> lower_char c = c.
Proof.
  destruct c as [[] [] [] [] [] [] [] []]; vm_compute; intros H;
    solve [reflexivity | discriminate].
Qed.

Lemma lower_digits (a : str) :
  forallb is_ascii_digit a = true -> lower a = a.
Proof.
  induction a as [|c a IH]; [reflexivity|]. simpl.
  rewrite andb_true_iff. intros [Hc Ha].
  rewrite (lower_char_digit c Hc), (IH Ha). reflexivity.
Qed.

Lemma character_substitution_cases (h : str) :
  _detect_character_substitution h = 1%Z
  \/ _detect_character_substitution h = 0%Z.
Proof.
  unfold _detect_character_substitution.
  destruct (truth _); [auto|].
  destruct (Re.matches_prefix _ _); [auto|].
  destruct (_ <? _)%nat; [auto|].
  destruct (existsb _ _); auto.
Qed.

(** The third group of a dotted quad is its second-to-last label. *)
Lemma dotted_quad_second_level (h : str) :
  _has_ip_address h = 1%Z ->
  exists c, forallb is_ascii_digit c = true /\ second_level_label h c
            /\ count "." h = 3%nat.
Proof.
  intros H. apply has_ip_address_shape in H.
  assert (Hn : ~ In "."%char ["010"%char])
    by (intros [E | []]; discriminate).
  destruct H as [H | [h' [-> H]]];
    destruct H as [a [b [c [d [[_ Ha] [[_ Hb] [[_ Hc] [[_ Hd] ->]]]]]]]];
    exists c; (split; [exact Hc|]).
  - split.
    + exists d. split; [apply digit_not_dot, Hc|].
      split; [apply digit_not_dot, Hd|].
      right. exists (a ++ "."%char :: b). rewrite <- app_assoc. reflexivity.
    + rewrite count_app, count_cons, count_app, count_cons, count_app,
        count_cons.
      rewrite !count_absent by (apply digit_not_dot; assumption).
      reflexivity.
  - split.
    + exists (d ++ ["010"%char]). split; [apply digit_not_dot, Hc|].
      split.
      * intros Hin. apply in_app_or in Hin.
        destruct Hin as [Hin | Hin]; [|exact (Hn Hin)].
        exact (digit_not_dot d Hd Hin).
      * right. exists (a ++ "."%char :: b).
        repeat (rewrite <- app_assoc; simpl). reflexivity.
    + rewrite count_app, count_app, count_cons, count_app, count_cons,
        count_app, count_cons.
      rewrite !count_absent
        by (try (apply digit_not_dot; assumption); exact Hn).
      reflexivity.
Qed.

(** X4.  On a dotted-quad host the other host detectors are all 0:
    has_brand_spoofing, has_suspicious_tld, has_character_substitution,
    is_url_shortener and excessive_subdomains. *)
Theorem dotted_quad_host_signals (h u : str) :
  _has_ip_address h = 1%Z ->
  _detect_brand_spoofing h u = 0%Z
  /\ _detect_suspicious_tld h = 0%Z
  /\ _detect_character_substitution h = 0%Z
  /\ _is_url_shortener h = 0%Z
  /\ _has_excessive_subdomains h = 0%Z.
Proof.
  intros Hip. pose proof (has_ip_chars h Hip) as Hq.
  assert (Hw : ~ In "w"%char h).
  { intros Hin. rewrite forallb_forall in Hq. specialize (Hq _ Hin).
    discriminate. }
  destruct (dotted_quad_second_level h Hip) as [c [Hc [Hsl Hcount]]].
  split; [|split; [|split; [|split]]].
  - destruct (brand_spoofing_cases h u) as [H2 | H2]; [exfalso | exact H2].
    apply brand_spoofing_needs_brand in H2. destruct H2 as [brand [Hin Ho]].
    pose proof (occurs_in_forallb quad_char _ _ Ho Hq) as Hb.
    assert (Hall : forallb (fun b => negb (forallb quad_char b))
                           brand_keywords = true) by (vm_compute; reflexivity).
    rewrite forallb_forall in Hall. specialize (Hall _ Hin).
    rewrite Hb in Hall. discriminate.
  - destruct (suspicious_tld_cases h) as [E | E]; [exfalso | exact E].
    unfold _detect_suspicious_tld in E.
    destruct (existsb _ _) eqn:Ex; [|discriminate].
    apply existsb_exists in Ex. destruct Ex as [tld [Hin He]].
    apply endswith_iff in He. destruct He as [a Ha].
    assert (Ho : occurs_in tld h) by (exists a, []; rewrite app_nil_r; exact Ha).
    pose proof (occurs_in_forallb quad_char _ _ Ho Hq) as Hb.
    assert (Hall : forallb (fun b => negb (forallb quad_char b))
                           suspicious_tlds = true) by (vm_compute; reflexivity).
    rewrite forallb_forall in Hall. specialize (Hall _ Hin).
    rewrite Hb in Hall. discriminate.
  - destruct (character_substitution_cases h) as [E | E];
      [exfalso | exact E].
    apply (character_substitution_iff h c Hsl) in E.
    destruct E as [_ [_ [p [m [Hin [Ho Hm]]]]]].
    rewrite (lower_digits c Hc) in Ho.
    pose proof (occurs_in_forallb quad_char _ _ Ho (digits_quad c Hc)) as Hb.
    pose proof (needs_Lang is_ascii_lower p m Hm
                  (suspicious_patterns_need_letter p Hin)) as Hl.
    rewrite (forallb_existsb_false quad_char is_ascii_lower m
               quad_char_not_lower Hb) in Hl.
    discriminate.
  - unfold _is_url_shortener. change (lit "") with (@nil ascii).
    rewrite (clean_without_w h Hw).
    destruct (mem h url_shorteners) eqn:Em; [exfalso | reflexivity].
    apply mem_iff in Em.
    assert (Hall : forallb (fun b => negb (forallb quad_char b))
                           url_shorteners = true) by (vm_compute; reflexivity).
    rewrite forallb_forall in Hall. specialize (Hall _ Em).
    rewrite Hq in Hall. discriminate.
  - unfold _has_excessive_subdomains, split. change (lit ".") with ["."%char].
    rewrite split_char_length, Hcount. reflexivity.
Qed.

Lemma dotted_quad_host_signals_witness :
  _detect_brand_spoofing (lit "192.168.1.100")
                         (lit "http://192.168.1.100/paypal-login") = 0%Z
  /\ _detect_suspicious_tld (lit "192.168.1.100") = 0%Z
  /\ _detect_character_substitution (lit "192.168.1.100") = 0%Z
  /\ _is_url_shortener (lit "192.168.1.100") = 0%Z
  /\ _has_excessive_subdomains (lit "192.168.1.100") = 0%Z.
Proof.
  apply dotted_quad_host_signals. vm_compute. reflexivity.
Defined.

(** ** An explicit port and the host detectors *)

Lemma colon_not_ip (h : str) : In ":"%char h -> _has_ip_address h = 0%Z.
Proof.
  intros Hin. destruct (has_ip_cases h) as [E | E]; [exfalso | exact E].
  apply has_ip_chars in E. rewrite forallb_forall in E.
  specialize (E _ Hin). discriminate.
Qed.

Lemma colon_not_suspicious_tld (a b : str) :
  ~ In "."%char b -> _detect_suspicious_tld (a ++ ":"%char :: b) = 0%Z.
Proof.
  intros Hb.
  destruct (suspicious_tld_cases (a ++ ":"%char :: b)) as [E | E];
    [exfalso | exact E].
  unfold _detect_suspicious_tld in E.
  destruct (existsb _ _) eqn:Ex; [|discriminate].
  apply existsb_exists in Ex. destruct Ex as [tld [Hin He]].
  apply endswith_iff in He. destruct He as [r Hr].
  assert (Hall : forallb (fun d => (negb (char_in ":"%char d)
                                    && char_in "."%char d)%bool)
                         suspicious_tlds = true) by (vm_compute; reflexivity).
  rewrite forallb_forall in Hall. specialize (Hall tld Hin).
  apply andb_true_iff in Hall. destruct Hall as [Hcolon Hdot].
  apply negb_true_iff in Hcolon. apply char_in_iff in Hdot.
  apply app_eq_app in Hr. destruct Hr as [l [[_ H] | [_ H]]].
  - assert (Hc : In ":"%char tld).
    { rewrite H. apply in_or_app. right. left. reflexivity. }
    apply char_in_iff in Hc. congruence.
  - assert (Hd : In "."%char (":"%char :: b)).
    { rewrite H. apply in_or_app. right. exact Hdot. }
    destruct Hd as [Hd | Hd]; [discriminate | exact (Hb Hd)].
Qed.

Lemma colon_not_shortener (a b : str) :
  ~ In "."%char b -> _is_url_shortener (a ++ ":"%char :: b) = 0%Z.
Proof.
  intros Hb. unfold _is_url_shortener. change (lit "") with (@nil ascii).
  rewrite clean_app.
  2:{ intros [H | H]; [discriminate | exact (Hb H)]. }
  destruct (mem _ url_shorteners) eqn:Em; [exfalso | reflexivity].
  apply mem_iff in Em.
  assert (Hall : forallb (fun d => negb (char_in ":"%char d))
                         url_shorteners = true) by (vm_compute; reflexivity).
  rewrite forallb_forall in Hall. specialize (Hall _ Em).
  apply negb_true_iff in Hall.
  assert (Hc : In ":"%char (replace a (lit "www.") [] ++ ":"%char :: b)).
  { apply in_or_app. right. left. reflexivity. }
  apply char_in_iff in Hc. congruence.
Qed.

(** X8.  An explicit port hides the host from three detectors: when the
    authority of a successfully parsed URL has a colon with no dot behind it,
    has_ip, has_suspicious_tld and is_url_shortener are 0, whatever the host
    before the colon is. *)
Theorem port_hides_host_signals (chk : str -> bool) (s : str)
        (p : UrlParse.ParseResult) (a b : str) :
  parses chk s p ->
  UrlParse.netloc p = a ++ ":"%char :: b -> ~ In "."%char b ->
  field chk s "has_ip" = Some 0%Z
  /\ field chk s "has_suspicious_tld" = Some 0%Z
  /\ field chk s "is_url_shortener" = Some 0%Z.
Proof.
  intros Hp Hn Hb.
  rewrite (field_has_ip _ _ _ Hp), (field_suspicious_tld _ _ _ Hp),
    (field_url_shortener _ _ _ Hp).
  assert (Hh : host_of p = lower a ++ ":"%char :: lower b).
  { unfold host_of. rewrite Hn. unfold lower. rewrite map_app. reflexivity. }
  pose proof (lower_without_dot b Hb) as Hb'.
  rewrite Hh, colon_not_ip, colon_not_suspicious_tld, colon_not_shortener;
    auto.
  apply in_or_app. right. left. reflexivity.
Qed.

Lemma port_hides_host_signals_witness :
  let s := lit "http://10.0.0.1:8080/login" in
  field accept_brackets s "has_ip" = Some 0%Z
  /\ field accept_brackets s "has_suspicious_tld" = Some 0%Z
  /\ field accept_brackets s "is_url_shortener" = Some 0%Z.
Proof.
  apply (port_hides_host_signals accept_brackets _
           (UrlParse.mkParseResult (lit "http") (lit "10.0.0.1:8080")
                                   (lit "/login") [] [] [])
           (lit "10.0.0.1") (lit "8080")).
  - split; [vm_compute; reflexivity | discriminate].
  - reflexivity.
  - vm_compute. intuition discriminate.
Defined.

(** ** The text behind the host *)

Lemma split_aux_nonempty (sep : str) (s : str) :
  forall skip cur, split_aux sep skip cur s <> [].
Proof.
  induction s as [|c s IH]; intros skip cur; [discriminate|].
  cbn [split_aux]. destruct skip; [|apply IH].
  destruct (startswith (c :: s) sep); [discriminate | apply IH].
Qed.

Lemma last_cons_nonempty (x : str) (l : list str) :
  l <> [] -> last (x :: l) [] = last l [].
Proof. destruct l; [congruence | reflexivity]. Qed.

Lemma ends_with_cons (c : ascii) (s t : str) :
  ends_with s t -> ends_with (c :: s) t.
Proof. intros [a ->]. exists (c :: a). reflexivity. Qed.

Lemma ends_with_app (a s t : str) : ends_with s t -> ends_with (a ++ s) t.
Proof. intros [x ->]. exists (a ++ x). apply app_assoc. Qed.

Lemma not_occurs_cons (sep : str) (c : ascii) (s : str) :
  startswith (c :: s) sep = false -> ~ occurs_in sep s ->
  ~ occurs_in sep (c :: s).
Proof.
  intros Hs Ho [a [b E]]. destruct a as [|c' a].
  - assert (H : startswith (c :: s) sep = true)
      by (apply startswith_iff; exists b; exact E).
    congruence.
  - simpl in E. inversion E; subst. apply Ho. exists a, b. reflexivity.
Qed.

(** The last piece of a split: either the separator does not occur and the
    piece is the whole text, or the piece follows an occurrence and holds no
    further one. *)
Lemma split_aux_last (sep : str) :
  sep <> [] ->
  forall s skip cur, (skip <= List.length s)%nat ->
    (~ occurs_in sep (skipn skip s)
     /\ last (split_aux sep skip cur s) [] = rev cur ++ skipn skip s)
    \/ (ends_with (skipn skip s) (sep ++ last (split_aux sep skip cur s) [])
        /\ ~ occurs_in sep (last (split_aux sep skip cur s) [])).
Proof.
  intros Hsep. induction s as [|c s IH]; intros skip cur Hskip.
  - simpl in Hskip. assert (skip = 0%nat) as -> by lia. left. simpl. split.
    + intros [a [b E]]. destruct a; destruct sep; try discriminate.
      congruence.
    + rewrite app_nil_r. reflexivity.
  - destruct skip as [|k].
    + cbn [split_aux skipn].
      destruct (startswith (c :: s) sep) eqn:E.
      * right. rewrite last_cons_nonempty by apply split_aux_nonempty.
        pose proof (startswith_length _ _ E) as Hlen. simpl in Hlen.
        apply startswith_iff in E. destruct E as [r Er].
        assert (Hr : skipn (List.length sep - 1) s = r).
        { destruct sep as [|c' sep']; [congruence|].
          simpl in Er. inversion Er; subst. simpl.
          rewrite Nat.sub_0_r, skipn_app, skipn_all, Nat.sub_diag.
          reflexivity. }
        assert (Hne : (1 <= List.length sep)%nat).
        { destruct sep; [congruence | simpl; lia]. }
        rewrite Er.
        destruct (IH (List.length sep - 1)%nat []) as [[Hn Hl] | [He Hn]];
          [lia | |].
        -- rewrite Hr in Hn, Hl. simpl in Hl. rewrite Hl.
           split; [exists []; reflexivity | exact Hn].
        -- rewrite Hr in He. split; [|exact Hn].
           apply ends_with_app, He.
      * destruct (IH 0%nat (c :: cur)) as [[Hn Hl] | [He Hn]]; [lia | |].
        -- left. simpl in Hn, Hl. split.
           ++ apply not_occurs_cons; assumption.
           ++ rewrite Hl. simpl. rewrite <- app_assoc. reflexivity.
        -- right. simpl in He. split; [apply ends_with_cons, He | exact Hn].
    + cbn [split_aux skipn]. apply IH. simpl in Hskip. lia.
Qed.

(** X9.  The text that [_detect_suspicious_keywords] searches for path
    keywords follows an occurrence of the host in the lower-cased URL and
    holds no further occurrence of the host; it is empty when the host does
    not occur in the URL. *)
Theorem path_after_host_follows_last_host (u h : str) :
  h <> [] ->
  (occurs_in h u ->
     ends_with u (h ++ path_after_host u h)
     /\ ~ occurs_in h (path_after_host u h))
  /\ (~ occurs_in h u -> path_after_host u h = []).
Proof.
  intros Hh. unfold path_after_host. split.
  - intros Ho. pose proof Ho as Hi. apply str_in_iff in Hi. rewrite Hi.
    destruct (split_aux_last h Hh u 0 []) as [[Hn _] | H]; [simpl; lia | |].
    + simpl in Hn. contradiction.
    + simpl in H. exact H.
  - intros Hn. destruct (str_in h u) eqn:E; [|reflexivity].
    apply str_in_iff in E. contradiction.
Qed.

Lemma path_after_host_follows_last_host_witness :
  ends_with (lit "http://1.2.3.4/urgent/1.2.3.4/x")
            (lit "1.2.3.4"
             ++ path_after_host (lit "http://1.2.3.4/urgent/1.2.3.4/x")
                                (lit "1.2.3.4"))
  /\ ~ occurs_in (lit "1.2.3.4")
         (path_after_host (lit "http://1.2.3.4/urgent/1.2.3.4/x")
                          (lit "1.2.3.4")).
Proof.
  destruct (path_after_host_follows_last_host
              (lit "http://1.2.3.4/urgent/1.2.3.4/x") (lit "1.2.3.4"))
    as [H _]; [discriminate|].
  apply H. exists (lit "http://"), (lit "/urgent/1.2.3.4/x"). reflexivity.
Defined.

(** ** The range of the fields *)

Lemma suspicious_keywords_cases (u h : str) :
  _detect_suspicious_keywords u h = 1%Z
  \/ _detect_suspicious_keywords u h = 0%Z.
Proof.
  unfold _detect_suspicious_keywords.
  destruct (truth _); [auto|].
  destruct (existsb _ domain_suspicious_keywords); [auto|].
  destruct (existsb _ path_suspicious_keywords); [|auto].
  destruct (_ || _ || _)%bool; auto.
Qed.

Lemma url_shortener_cases (h : str) :
  _is_url_shortener h = 1%Z \/ _is_url_shortener h = 0%Z.
Proof. unfold _is_url_shortener. destruct (mem _ _); auto. Qed.

Lemma excessive_subdomains_cases (h : str) :
  _has_excessive_subdomains h = 1%Z \/ _has_excessive_subdomains h = 0%Z.
Proof. unfold _has_excessive_subdomains. destruct (_ <? _)%nat; auto. Qed.

Lemma keyword_combinations_cases (u h : str) :
  _detect_suspicious_keyword_combinations u h = 1%Z
  \/ _detect_suspicious_keyword_combinations u h = 0%Z.
Proof.
  unfold _detect_suspicious_keyword_combinations.
  destruct (truth _); [auto|]. destruct (existsb _ _); auto.
Qed.

Lemma flag_within (z : Z) : z = 1%Z \/ z = 0%Z -> (0 <= z <= 1)%Z.
Proof. intros [-> | ->]; lia. Qed.

Lemma extract_parsed_within_caps (s : str) (p : UrlParse.ParseResult) :
  within_caps (extract_parsed s p).
Proof.
  unfold within_caps. rewrite extract_parsed_fields.
  repeat (apply Forall_cons; [cbn [fst snd]|]); [..|apply Forall_nil];
    match goal with
    | |- context [cap ?k] =>
        let v := eval vm_compute in (cap k) in change (cap k) with v
    end;
    unfold len; try lia.
  - destruct (char_in "@" s); lia.
  - apply flag_within, has_ip_cases.
  - destruct (str_eqb _ _); lia.
  - apply flag_within, brand_spoofing_cases.
  - apply flag_within, suspicious_tld_cases.
  - apply flag_within, character_substitution_cases.
  - apply flag_within, suspicious_keywords_cases.
  - apply flag_within, url_shortener_cases.
  - apply flag_within, excessive_subdomains_cases.
  - apply flag_within, keyword_combinations_cases.
Qed.

Lemma extract_features_keys (chk : str -> bool) (v : pyvalue) :
  keys (extract_features chk v) = schema.
Proof.
  destruct v as [s | t]; [|reflexivity].
  destruct s as [|c s]; [reflexivity|].
  unfold extract_features.
  destruct (UrlParse.urlparse chk (c :: s)) as [p|]; [|reflexivity].
  destruct (UrlParse.netloc p); reflexivity.
Qed.

(** X1.  Whatever the input, every field of the result lies between 0 and
    its cap: 150 for url_length, 100 for path_length, 50 for domain_length,
    10 for num_digits, 5 for num_dots, num_hyphens and num_params, and 1 for
    the ten flags. *)
Theorem features_within_caps (chk : str -> bool) (v : pyvalue) :
  within_caps (extract_features chk v).
Proof.
  assert (Hd : within_caps _get_default_features).
  { unfold within_caps, _get_default_features.
    repeat (apply Forall_cons; [vm_compute; split; discriminate|]).
    apply Forall_nil. }
  destruct v as [s | t]; [|exact Hd].
  destruct s as [|c s]; [exact Hd|].
  unfold extract_features.
  destruct (UrlParse.urlparse chk (c :: s)) as [p|]; [|exact Hd].
  destruct (UrlParse.netloc p); [exact Hd | apply extract_parsed_within_caps].
Qed.

(** ** The whitelist and a leading [www.] *)

Lemma clean_leading_www (h : str) :
  replace (lit "www." ++ h) (lit "www.") [] = replace h (lit "www.") [].
Proof.
  unfold replace. change (lit "www." ++ h) with ("w"%char :: lit "ww." ++ h).
  cbn [replace_aux].
  assert (E : startswith ("w"%char :: lit "ww." ++ h) (lit "www.") = true).
  { apply startswith_iff. exists h. reflexivity. }
  rewrite E. cbn [app].
  rewrite replace_aux_skip by (rewrite length_app; simpl; lia).
  reflexivity.
Qed.

(** X14.  A [www.] in front of a host changes neither the whitelist check
    nor the shortener check, whatever the host is. *)
Theorem leading_www_is_ignored (h : str) :
  _is_legitimate_domain (lit "www." ++ h) = _is_legitimate_domain h
  /\ _is_url_shortener (lit "www." ++ h) = _is_url_shortener h.
Proof.
  unfold _is_legitimate_domain, _is_url_shortener.
  change (lit "") with (@nil ascii). rewrite clean_leading_www. auto.
Qed.

(** ** The batch functions *)

Lemma skipn_nth_error_some (labels : list Z) :
  forall i label, nth_error labels i = Some label ->
                  skipn i labels = label :: skipn (S i) labels.
Proof.
  induction labels as [|x l IH]; intros [|i] label H; try discriminate.
  - simpl in H. inversion H. reflexivity.
  - simpl in H. apply IH in H. exact H.
Qed.

Lemma skipn_nth_error_none (labels : list Z) :
  forall i, nth_error labels i = None -> skipn i labels = [].
Proof.
  induction labels as [|x l IH]; intros [|i] H; try reflexivity;
    try discriminate.
  simpl in H. apply IH in H. exact H.
Qed.

(** The loop of [process_urls_batch] pairs the URLs with the labels that
    are left. *)
Lemma process_from_combine (chk : str -> bool) (labels : list Z)
      (urls : list pyvalue) :
  forall i,
    Batch.process_from chk i urls labels =
    if (List.length urls <=? List.length (skipn i labels))%nat
    then Some (map (fun ul => dict_set (extract_features chk (fst ul))
                                       "label" (snd ul))
                   (combine urls (skipn i labels)))
    else None.
Proof.
  induction urls as [|url rest IH]; intros i; [reflexivity|].
  cbn [Batch.process_from]. rewrite IH.
  destruct (nth_error labels i) as [label|] eqn:E.
  - rewrite (skipn_nth_error_some labels i label E).
    cbn [List.length combine map fst snd Nat.leb].
    destruct (_ <=? _)%nat; reflexivity.
  - rewrite (skipn_nth_error_none labels i E). reflexivity.
Qed.

Lemma process_urls_batch_rows (chk : str -> bool) (urls : list pyvalue)
      (labels : list Z) (rows : list features) :
  Batch.process_urls_batch chk urls labels = Some rows ->
  rows = map (fun ul => dict_set (extract_features chk (fst ul))
                                 "label" (snd ul))
             (combine urls labels).
Proof.
  unfold Batch.process_urls_batch. rewrite process_from_combine.
  cbn [skipn]. destruct (_ <=? _)%nat; [|discriminate].
  intros E. inversion E. reflexivity.
Qed.

(** X10.  [process_urls_batch] returns a table exactly when there are at
    least as many labels as URLs, and raises otherwise; the table has one row
    per URL, in order, built from the features of the URL and the label at the
    same index; labels beyond the last URL are ignored. *)
Theorem process_urls_batch_pairs (chk : str -> bool) (urls : list pyvalue)
        (labels : list Z) :
  ((List.length urls <= List.length labels)%nat ->
   Batch.process_urls_batch chk urls labels
   = Some (map (fun ul => dict_set (extract_features chk (fst ul))
                                   "label" (snd ul))
               (combine urls labels)))
  /\ ((List.length labels < List.length urls)%nat ->
      Batch.process_urls_batch chk urls labels = None).
Proof.
  unfold Batch.process_urls_batch. rewrite process_from_combine.
  cbn [skipn]. split; intros H.
  - apply Nat.leb_le in H. rewrite H. reflexivity.
  - apply Nat.leb_gt in H. rewrite H. reflexivity.
Qed.

Lemma process_urls_batch_pairs_witness :
  Batch.process_urls_batch accept_brackets
    [PyStr (lit "https://bit.ly/x"); PyOther None] [1%Z; 0%Z; 1%Z]
  = Some [dict_set (extract_features accept_brackets
                                     (PyStr (lit "https://bit.ly/x")))
                   "label" 1%Z;
          dict_set (extract_features accept_brackets (PyOther None))
                   "label" 0%Z]
  /\ Batch.process_urls_batch accept_brackets
       [PyStr (lit "https://bit.ly/x"); PyOther None] [1%Z]
     = None.
Proof.
  split.
  - apply (process_urls_batch_pairs accept_brackets
             [PyStr (lit "https://bit.ly/x"); PyOther None] [1%Z; 0%Z; 1%Z]).
    simpl. lia.
  - apply (process_urls_batch_pairs accept_brackets
             [PyStr (lit "https://bit.ly/x"); PyOther None] [1%Z]).
    simpl. lia.
Defined.

Lemma dict_get_set_same (d : features) (k : string) (v : Z) :
  dict_get (dict_set d k v) k = Some v.
Proof.
  induction d as [|[k' v'] d IH]; simpl.
  - rewrite String.eqb_refl. reflexivity.
  - destruct (String.eqb k k') eqn:E; simpl; rewrite E; [reflexivity | exact IH].
Qed.

Lemma dict_get_set_other (d : features) (k k' : string) (v : Z) :
  k' <> k -> dict_get (dict_set d k v) k' = dict_get d k'.
Proof.
  intros Hk. induction d as [|[k0 v0] d IH]; simpl.
  - destruct (String.eqb k' k) eqn:E; [|reflexivity].
    apply String.eqb_eq in E. contradiction.
  - destruct (String.eqb k k0) eqn:E; simpl.
    + apply String.eqb_eq in E. subst k0.
      destruct (String.eqb k' k) eqn:E'; [|reflexivity].
      apply String.eqb_eq in E'. contradiction.
    + destruct (String.eqb k' k0); [reflexivity | exact IH].
Qed.

Lemma keys_set_new (d : features) (k : string) (v : Z) :
  ~ In k (keys d) -> keys (dict_set d k v) = keys d ++ [k].
Proof.
  unfold keys. induction d as [|[k' v'] d IH]; intros Hk; [reflexivity|].
  simpl. destruct (String.eqb k k') eqn:E.
  - apply String.eqb_eq in E. subst. exfalso. apply Hk. left. reflexivity.
  - simpl. rewrite IH; [reflexivity|]. intros H. apply Hk. right. exact H.
Qed.

(** X11.  Every row of the table of [process_urls_batch] has the seventeen
    feature columns in schema order followed by [label]; its feature values
    are those of [extract_features] on the URL of the row, within their caps,
    and adding the label changes none of them.  Every row of the module-level
    [extract_features] has the seventeen feature columns. *)
Theorem batch_rows_have_schema (chk : str -> bool) (urls : list pyvalue)
        (labels : list Z) :
  (forall rows row,
     Batch.process_urls_batch chk urls labels = Some rows -> In row rows ->
     keys row = schema ++ ["label"%string]
     /\ exists url label,
          In url urls /\ In label labels
          /\ dict_get row "label" = Some label
          /\ forall k, In k schema ->
                       dict_get row k = dict_get (extract_features chk url) k)
  /\ Forall (fun row => keys row = schema) (Batch.extract_features chk urls)
  /\ List.length (Batch.extract_features chk urls) = List.length urls.
Proof.
  split; [|split].
  - intros rows row Hrows Hin.
    apply process_urls_batch_rows in Hrows. subst rows.
    apply in_map_iff in Hin. destruct Hin as [[url label] [<- Hin]].
    cbn [fst snd].
    pose proof (extract_features_keys chk url) as Hk.
    split.
    + rewrite keys_set_new; [rewrite Hk; reflexivity|].
      rewrite Hk. vm_compute. intuition discriminate.
    + exists url, label.
      split; [exact (in_combine_l _ _ _ _ Hin)|].
      split; [exact (in_combine_r _ _ _ _ Hin)|].
      split; [apply dict_get_set_same|].
      intros k Hks. apply dict_get_set_other. intros ->.
      revert Hks. vm_compute. intuition discriminate.
  - unfold Batch.extract_features. apply Forall_forall. intros row Hin.
    apply in_map_iff in Hin. destruct Hin as [url [<- _]].
    apply extract_features_keys.
  - unfold Batch.extract_features. apply length_map.
Qed.

Lemma batch_rows_have_schema_witness :
  keys (dict_set (extract_features accept_brackets
                                   (PyStr (lit "https://bit.ly/x")))
                 "label" 1%Z)
  = schema ++ ["label"%string].
Proof.
  destruct (batch_rows_have_schema accept_brackets
              [PyStr (lit "https://bit.ly/x")] [1%Z]) as [H _].
  apply (H [dict_set (extract_features accept_brackets
                                       (PyStr (lit "https://bit.ly/x")))
                     "label" 1%Z]).
  - reflexivity.
  - left. reflexivity.
Defined.

(** ** Letter case *)

Lemma lower_char_idem (c : ascii) : lower_char (lower_char c) = lower_char c.
Proof. destruct c as [[] [] [] [] [] [] [] []]; reflexivity. Qed.

Lemma lower_idem (s : str) : lower (lower s) = lower s.
Proof.
  unfold lower. rewrite map_map. apply map_ext. apply lower_char_idem.
Qed.

Lemma length_lower (s : str) : List.length (lower s) = List.length s.
Proof. apply length_map. Qed.

Lemma isdigit_lower (c : ascii) : isdigit (lower_char c) = isdigit c.
Proof. destruct c as [[] [] [] [] [] [] [] []]; reflexivity. Qed.

Lemma c0_lower (c : ascii) :
  UrlParse.c0_control_or_space (lower_char c) = UrlParse.c0_control_or_space c.
Proof. destruct c as [[] [] [] [] [] [] [] []]; reflexivity. Qed.

Lemma scheme_chars_lower (c : ascii) :
  UrlParse.scheme_chars (lower_char c) = UrlParse.scheme_chars c.
Proof. destruct c as [[] [] [] [] [] [] [] []]; reflexivity. Qed.

Lemma ascii_alpha_lower (c : ascii) :
  (in_range 0 127 (lower_char c) && is_ascii_alpha (lower_char c))%bool
  = (in_range 0 127 c && is_ascii_alpha c)%bool.
Proof. destruct c as [[] [] [] [] [] [] [] []]; reflexivity. Qed.

(** Lower-casing neither makes nor unmakes the character [t]. *)
Ltac by_cases_on_char :=
  let x := fresh "x" in
  intros x; destruct x as [[] [] [] [] [] [] [] []]; split; reflexivity.

Lemma keeps_colon : forall x,
  Ascii.eqb (lower_char x) ":" = Ascii.eqb x ":"
  /\ Ascii.eqb ":" (lower_char x) = Ascii.eqb ":" x.
Proof. by_cases_on_char. Qed.

Lemma keeps_slash : forall x,
  Ascii.eqb (lower_char x) "/" = Ascii.eqb x "/"
  /\ Ascii.eqb "/" (lower_char x) = Ascii.eqb "/" x.
Proof. by_cases_on_char. Qed.

Lemma keeps_question : forall x,
  Ascii.eqb (lower_char x) "?" = Ascii.eqb x "?"
  /\ Ascii.eqb "?" (lower_char x) = Ascii.eqb "?" x.
Proof. by_cases_on_char. Qed.

Lemma keeps_hash : forall x,
  Ascii.eqb (lower_char x) "#" = Ascii.eqb x "#"
  /\ Ascii.eqb "#" (lower_char x) = Ascii.eqb "#" x.
Proof. by_cases_on_char. Qed.

Lemma keeps_semicolon : forall x,
  Ascii.eqb (lower_char x) ";" = Ascii.eqb x ";"
  /\ Ascii.eqb ";" (lower_char x) = Ascii.eqb ";" x.
Proof. by_cases_on_char. Qed.

Lemma keeps_lbracket : forall x,
  Ascii.eqb (lower_char x) "[" = Ascii.eqb x "["
  /\ Ascii.eqb "[" (lower_char x) = Ascii.eqb "[" x.
Proof. by_cases_on_char. Qed.

Lemma keeps_rbracket : forall x,
  Ascii.eqb (lower_char x) "]" = Ascii.eqb x "]"
  /\ Ascii.eqb "]" (lower_char x) = Ascii.eqb "]" x.
Proof. by_cases_on_char. Qed.

Lemma keeps_at : forall x,
  Ascii.eqb (lower_char x) "@" = Ascii.eqb x "@"
  /\ Ascii.eqb "@" (lower_char x) = Ascii.eqb "@" x.
Proof. by_cases_on_char. Qed.

Lemma keeps_dot : forall x,
  Ascii.eqb (lower_char x) "." = Ascii.eqb x "."
  /\ Ascii.eqb "." (lower_char x) = Ascii.eqb "." x.
Proof. by_cases_on_char. Qed.

Lemma keeps_hyphen : forall x,
  Ascii.eqb (lower_char x) "-" = Ascii.eqb x "-"
  /\ Ascii.eqb "-" (lower_char x) = Ascii.eqb "-" x.
Proof. by_cases_on_char. Qed.

Lemma keeps_equals : forall x,
  Ascii.eqb (lower_char x) "=" = Ascii.eqb x "="
  /\ Ascii.eqb "=" (lower_char x) = Ascii.eqb "=" x.
Proof. by_cases_on_char. Qed.

Lemma keeps_tab : forall x,
  Ascii.eqb (lower_char x) "009" = Ascii.eqb x "009"
  /\ Ascii.eqb "009" (lower_char x) = Ascii.eqb "009" x.
Proof. by_cases_on_char. Qed.

Lemma keeps_cr : forall x,
  Ascii.eqb (lower_char x) "013" = Ascii.eqb x "013"
  /\ Ascii.eqb "013" (lower_char x) = Ascii.eqb "013" x.
Proof. by_cases_on_char. Qed.

Lemma keeps_lf : forall x,
  Ascii.eqb (lower_char x) "010" = Ascii.eqb x "010"
  /\ Ascii.eqb "010" (lower_char x) = Ascii.eqb "010" x.
Proof. by_cases_on_char. Qed.

Section Kept.

(** A character that lower-casing neither makes nor unmakes. *)
Variable t : ascii.
Hypothesis keeps : forall x,
  Ascii.eqb (lower_char x) t = Ascii.eqb x t
  /\ Ascii.eqb t (lower_char x) = Ascii.eqb t x.

Lemma find_from_lower (s : str) :
  forall k, find_from t (lower s) k = find_from t s k.
Proof.
  induction s as [|a s IH]; intros k; [reflexivity|].
  cbn [lower map find_from]. fold (lower s).
  destruct k as [|k]; rewrite IH; [|reflexivity].
  rewrite (proj1 (keeps a)). reflexivity.
Qed.

Lemma find_lower (s : str) : find t (lower s) = find t s.
Proof. apply find_from_lower. Qed.

Lemma char_in_lower (s : str) : char_in t (lower s) = char_in t s.
Proof.
  unfold char_in, lower. induction s as [|a s IH]; [reflexivity|].
  simpl. rewrite IH, (proj2 (keeps a)). reflexivity.
Qed.

Lemma count_lower (s : str) : count t (lower s) = count t s.
Proof.
  unfold count, lower. induction s as [|a s IH]; [reflexivity|].
  simpl. rewrite (proj2 (keeps a)).
  destruct (Ascii.eqb t a); simpl; rewrite IH; reflexivity.
Qed.

Lemma remove_char_lower (s : str) :
  remove_char t (lower s) = lower (remove_char t s).
Proof.
  unfold remove_char, lower. induction s as [|a s IH]; [reflexivity|].
  simpl. rewrite (proj1 (keeps a)).
  destruct (Ascii.eqb a t); simpl; rewrite IH; reflexivity.
Qed.

Lemma rfind_lower (s : str) : rfind t (lower s) = rfind t s.
Proof.
  unfold rfind. rewrite length_lower. unfold lower at 1.
  rewrite <- map_rev. fold (lower (rev s)). rewrite find_lower. reflexivity.
Qed.

Lemma split_once_lower (s : str) :
  UrlParse.split_once t (lower s)
  = option_map (fun p => (lower (fst p), lower (snd p)))
               (UrlParse.split_once t s).
Proof.
  unfold UrlParse.split_once. rewrite find_lower.
  destruct (find t s) as [i|]; [|reflexivity].
  unfold lower. rewrite firstn_map, skipn_map. reflexivity.
Qed.

End Kept.

Lemma lstrip_lower (s : str) :
  lstrip UrlParse.c0_control_or_space (lower s)
  = lower (lstrip UrlParse.c0_control_or_space s).
Proof.
  induction s as [|a s IH]; [reflexivity|].
  cbn [lower map lstrip]. fold (lower s). rewrite c0_lower.
  destruct (UrlParse.c0_control_or_space a); [exact IH | reflexivity].
Qed.

Lemma remove_unsafe_lower (s : str) :
  UrlParse.remove_unsafe (lower s) = lower (UrlParse.remove_unsafe s).
Proof.
  unfold UrlParse.remove_unsafe.
  rewrite (remove_char_lower _ keeps_tab), (remove_char_lower _ keeps_cr),
    (remove_char_lower _ keeps_lf).
  reflexivity.
Qed.

Lemma splitnetloc_lower (u : str) (k : nat) :
  UrlParse._splitnetloc (lower u) k
  = (lower (fst (UrlParse._splitnetloc u k)),
     lower (snd (UrlParse._splitnetloc u k))).
Proof.
  unfold UrlParse._splitnetloc. cbn [fst snd lit list_ascii_of_string fold_left].
  rewrite (find_from_lower _ keeps_slash), (find_from_lower _ keeps_question),
    (find_from_lower _ keeps_hash), length_lower.
  unfold lower. rewrite !firstn_map, !skipn_map. reflexivity.
Qed.

Lemma splitparams_lower (u : str) :
  UrlParse._splitparams (lower u)
  = (lower (fst (UrlParse._splitparams u)),
     lower (snd (UrlParse._splitparams u))).
Proof.
  unfold UrlParse._splitparams.
  rewrite (char_in_lower _ keeps_slash), (rfind_lower _ keeps_slash),
    (find_lower _ keeps_semicolon).
  destruct (char_in "/" u).
  - destruct (rfind "/" u) as [j|]; [|reflexivity].
    rewrite (find_from_lower _ keeps_semicolon).
    destruct (find_from ";" u j) as [i|]; [|reflexivity].
    unfold lower. rewrite firstn_map, skipn_map. reflexivity.
  - destruct (find ";" u) as [i|]; [|reflexivity].
    unfold lower. rewrite firstn_map, skipn_map. reflexivity.
Qed.

Lemma urlsplit_steps (chk : str -> bool) (url0 : str) :
  UrlParse.urlsplit chk url0 =
  let su := split_scheme
              (UrlParse.remove_unsafe
                 (lstrip UrlParse.c0_control_or_space url0)) in
  urlsplit_after_scheme chk (fst su) (snd su).
Proof.
  unfold UrlParse.urlsplit, split_scheme, urlsplit_after_scheme.
  cbv zeta.
  destruct (find ":" _) as [[|i']|];
    destruct (UrlParse.remove_unsafe _) as [|c0 u]; try reflexivity.
  destruct (_ && _ && _)%bool; reflexivity.
Qed.

Lemma forallb_scheme_lower (s : str) :
  forallb UrlParse.scheme_chars (lower s) = forallb UrlParse.scheme_chars s.
Proof.
  induction s as [|c s IH]; [reflexivity|].
  simpl. rewrite scheme_chars_lower. fold (lower s). rewrite IH. reflexivity.
Qed.

Lemma split_scheme_lower (url : str) :
  split_scheme (lower url)
  = (fst (split_scheme url), lower (snd (split_scheme url))).
Proof.
  unfold split_scheme. rewrite (find_lower _ keeps_colon).
  destruct (find ":" url) as [[|i']|]; destruct url as [|c0 u];
    try reflexivity.
  assert (EF : firstn (S i') (lower (c0 :: u))
               = lower (firstn (S i') (c0 :: u)))
    by (unfold lower; apply firstn_map).
  assert (EK : skipn (S (S i')) (lower (c0 :: u))
               = lower (skipn (S (S i')) (c0 :: u)))
    by (unfold lower; apply skipn_map).
  rewrite EF, EK, forallb_scheme_lower, lower_idem.
  change (lower (c0 :: u)) with (lower_char c0 :: lower u).
  cbv iota. rewrite ascii_alpha_lower.
  destruct (_ && _ && _)%bool; reflexivity.
Qed.

Lemma in_firstn (x : ascii) (n : nat) (s : str) :
  In x (firstn n s) -> In x s.
Proof.
  intros H. rewrite <- (firstn_skipn n s). apply in_or_app. left. exact H.
Qed.

Lemma in_skipn (x : ascii) (n : nat) (s : str) : In x (skipn n s) -> In x s.
Proof.
  intros H. rewrite <- (firstn_skipn n s). apply in_or_app. right. exact H.
Qed.

Lemma in_lstrip (f : ascii -> bool) (x : ascii) (s : str) :
  In x (lstrip f s) -> In x s.
Proof.
  induction s as [|c s IH]; [auto|]. simpl.
  destruct (f c); [intros H; right; apply IH, H | auto].
Qed.

Lemma in_remove_unsafe (x : ascii) (s : str) :
  In x (UrlParse.remove_unsafe s) -> In x s.
Proof.
  unfold UrlParse.remove_unsafe, remove_char. intros H.
  apply filter_In in H. destruct H as [H _].
  apply filter_In in H. destruct H as [H _].
  apply filter_In in H. destruct H as [H _]. exact H.
Qed.

Lemma in_split_scheme (x : ascii) (url : str) :
  In x (snd (split_scheme url)) -> In x url.
Proof.
  unfold split_scheme.
  destruct (find ":" url) as [[|i']|]; destruct url as [|c0 u]; auto.
  destruct (_ && _ && _)%bool; [|auto].
  cbn [snd]. apply in_skipn.
Qed.

Lemma in_splitnetloc (x : ascii) (url : str) (k : nat) :
  In x (fst (UrlParse._splitnetloc url k)) -> In x url.
Proof.
  unfold UrlParse._splitnetloc. cbn [fst]. intros H.
  apply in_skipn in H. apply in_firstn in H. exact H.
Qed.

Lemma str_eqb_slashes_lower (s : str) :
  str_eqb (lower s) (lit "//") = str_eqb s (lit "//").
Proof.
  destruct s as [|a [|b [|c s]]]; try reflexivity; simpl;
    rewrite ?(proj1 (keeps_slash a)), ?(proj1 (keeps_slash b)); reflexivity.
Qed.

Lemma after_scheme_lower (chk : str -> bool) (scheme url : str) :
  ~ In "["%char url ->
  urlsplit_after_scheme chk scheme (lower url)
  = option_map
      (fun r => match r with
                | (sch, nl, u, q, f) => (sch, lower nl, lower u, lower q, lower f)
                end)
      (urlsplit_after_scheme chk scheme url).
Proof.
  intros Hb. unfold urlsplit_after_scheme.
  unfold lower at 1. rewrite firstn_map. fold (lower (firstn 2 url)).
  rewrite str_eqb_slashes_lower, splitnetloc_lower.
  assert (Hn : forall netloc rest,
             (if str_eqb (firstn 2 url) (lit "//")
              then UrlParse._splitnetloc url 2 else ([], url)) = (netloc, rest)
             -> char_in "[" netloc = false).
  { intros netloc rest E. apply not_true_iff_false. intros Hin.
    apply char_in_iff in Hin. apply Hb.
    destruct (str_eqb (firstn 2 url) (lit "//")).
    - apply (in_splitnetloc _ url 2). rewrite E. exact Hin.
    - inversion E; subst. destruct Hin. }
  destruct (if str_eqb (firstn 2 url) (lit "//")
            then UrlParse._splitnetloc url 2 else ([], url))
    as [netloc rest] eqn:E.
  specialize (Hn netloc rest eq_refl).
  assert (E' : (if str_eqb (firstn 2 url) (lit "//")
                then (lower (fst (UrlParse._splitnetloc url 2)),
                      lower (snd (UrlParse._splitnetloc url 2)))
                else ([], lower url)) = (lower netloc, lower rest)).
  { destruct (str_eqb (firstn 2 url) (lit "//")).
    - rewrite E. reflexivity.
    - inversion E; subst. reflexivity. }
  rewrite E'.
  rewrite (char_in_lower _ keeps_lbracket), (char_in_lower _ keeps_rbracket),
    Hn.
  cbn [andb orb negb].
  destruct (char_in "]" netloc); cbn [andb orb negb]; [reflexivity|].
  rewrite (split_once_lower _ keeps_hash).
  destruct (UrlParse.split_once "#" rest) as [[u1 f1]|]; cbn [option_map fst snd].
  - rewrite (split_once_lower _ keeps_question).
    destruct (UrlParse.split_once "?" u1) as [[u2 q2]|]; reflexivity.
  - rewrite (split_once_lower _ keeps_question).
    destruct (UrlParse.split_once "?" rest) as [[u2 q2]|]; reflexivity.
Qed.

Lemma urlsplit_lower (chk : str -> bool) (s : str) :
  ~ In "["%char s ->
  UrlParse.urlsplit chk (lower s)
  = option_map
      (fun r => match r with
                | (sch, nl, u, q, f) => (sch, lower nl, lower u, lower q, lower f)
                end)
      (UrlParse.urlsplit chk s).
Proof.
  intros Hb. rewrite !urlsplit_steps. cbv zeta.
  rewrite lstrip_lower, remove_unsafe_lower, split_scheme_lower.
  cbn [fst snd]. apply after_scheme_lower.
  intros Hin. apply Hb.
  apply in_split_scheme, in_remove_unsafe, in_lstrip in Hin. exact Hin.
Qed.

Lemma urlparse_lower (chk : str -> bool) (s : str) :
  ~ In "["%char s ->
  UrlParse.urlparse chk (lower s)
  = option_map lower_result (UrlParse.urlparse chk s).
Proof.
  intros Hb. unfold UrlParse.urlparse. rewrite (urlsplit_lower chk s Hb).
  destruct (UrlParse.urlsplit chk s) as [[[[[sch nl] u] q] f]|];
    [|reflexivity].
  cbn [option_map]. rewrite (char_in_lower _ keeps_semicolon), splitparams_lower.
  destruct (existsb (str_eqb sch) UrlParse.uses_params && char_in ";" u)%bool.
  - destruct (UrlParse._splitparams u) as [u' ps]. reflexivity.
  - reflexivity.
Qed.

Lemma digits_lower (s : str) :
  List.length (filter isdigit (lower s)) = List.length (filter isdigit s).
Proof.
  induction s as [|c s IH]; [reflexivity|].
  simpl. rewrite isdigit_lower. fold (lower s).
  destruct (isdigit c); simpl; rewrite IH; reflexivity.
Qed.

Lemma extract_parsed_lower (s : str) (p : UrlParse.ParseResult) :
  extract_parsed (lower s) (lower_result p) = extract_parsed s p.
Proof.
  rewrite !extract_parsed_fields. unfold host_of, lower_result, len.
  cbn [UrlParse.netloc UrlParse.scheme UrlParse.path].
  rewrite !lower_idem, !length_lower, digits_lower,
    (count_lower _ keeps_dot), (count_lower _ keeps_hyphen),
    (count_lower _ keeps_equals), (char_in_lower _ keeps_at).
  reflexivity.
Qed.

(** X15.  The extractor ignores letter case: a URL without an opening
    bracket and its lower-cased form get the same feature vector. *)
Theorem extract_ignores_case (chk : str -> bool) (s : str) :
  ~ In "["%char s ->
  extract_features chk (PyStr (lower s)) = extract_features chk (PyStr s).
Proof.
  intros Hb. destruct s as [|c s]; [reflexivity|].
  change (lower (c :: s)) with (lower_char c :: lower s).
  unfold extract_features.
  change (lower_char c :: lower s) with (lower (c :: s)).
  rewrite (urlparse_lower chk (c :: s) Hb).
  destruct (UrlParse.urlparse chk (c :: s)) as [p|]; [|reflexivity].
  cbn [option_map]. unfold lower_result at 1. cbn [UrlParse.netloc].
  destruct (UrlParse.netloc p) as [|n0 nl] eqn:En; [reflexivity|].
  cbn [lower map]. cbv iota.
  exact (extract_parsed_lower (c :: s) p).
Qed.

Lemma extract_ignores_case_witness :
  extract_features accept_brackets
                   (PyStr (lower (lit "HTTPS://PayPal-Login.TK/Verify?A=1")))
  = extract_features accept_brackets
                     (PyStr (lit "HTTPS://PayPal-Login.TK/Verify?A=1")).
Proof.
  apply extract_ignores_case. vm_compute. intuition discriminate.
Defined.

(** ** [_detect_suspicious_keyword_combinations] *)

Lemma combo_exists_iff (u : str) :
  existsb (fun p => (str_in (fst p) u && str_in (snd p) u)%bool)
          brand_action_combos = true
  <-> exists a b, In (a, b) brand_action_combos
                  /\ occurs_in a u /\ occurs_in b u.
Proof.
  rewrite existsb_exists. split.
  - intros [[a b] [Hin H]]. cbn [fst snd] in H.
    apply andb_true_iff in H. destruct H as [Ha Hb].
    exists a, b. rewrite <- !str_in_iff. auto.
  - intros [a [b [Hin [Ha Hb]]]]. exists (a, b). cbn [fst snd].
    split; [exact Hin|]. apply andb_true_iff. rewrite !str_in_iff. auto.
Qed.

(** X13.  suspicious_keyword_combo is 1 exactly when the host is not
    whitelisted and both words of one of the nineteen pairs occur somewhere in
    the lower-cased URL, in any order and in any part of it; so, for a given
    host, text added to the URL never clears the signal. *)
Theorem keyword_combo_bag_of_words (u h : str) :
  (_detect_suspicious_keyword_combinations u h = 1%Z
   <-> ~ legitimate h
       /\ exists a b, In (a, b) brand_action_combos
                      /\ occurs_in a u /\ occurs_in b u)
  /\ (forall u', _detect_suspicious_keyword_combinations u h = 1%Z ->
                 occurs_in u u' ->
                 _detect_suspicious_keyword_combinations u' h = 1%Z).
Proof.
  assert (Hiff : forall u,
             _detect_suspicious_keyword_combinations u h = 1%Z
             <-> ~ legitimate h
                 /\ exists a b, In (a, b) brand_action_combos
                                /\ occurs_in a u /\ occurs_in b u).
  { intros v. unfold _detect_suspicious_keyword_combinations.
    rewrite <- combo_exists_iff, <- truth_legitimate.
    destruct (truth (_is_legitimate_domain h)).
    - split; [discriminate | intros [H _]; exfalso; apply H; reflexivity].
    - destruct (existsb _ _).
      + split; [intros _; split; [discriminate | reflexivity] | reflexivity].
      + split; [discriminate | intros [_ H]; discriminate]. }
  split; [apply Hiff|].
  intros u' H Ho. apply Hiff in H. apply Hiff.
  destruct H as [Hn [a [b [Hin [Ha Hb]]]]].
  split; [exact Hn|]. exists a, b. split; [exact Hin|].
  split; eapply occurs_in_trans; eassumption.
Qed.

Lemma keyword_combo_bag_of_words_witness :
  _detect_suspicious_keyword_combinations
    (lit "https://evil.example/verify?next=paypal") (lit "evil.example") = 1%Z.
Proof.
  destruct (keyword_combo_bag_of_words (lit "/verify?next=paypal")
                                       (lit "evil.example")) as [_ H].
  apply H.
  - vm_compute. reflexivity.
  - exists (lit "https://evil.example"), []. reflexivity.
Defined.

(** ** URLs without a double slash *)

Lemma count_firstn_skipn (c : ascii) (n : nat) (s : str) :
  count c s = (count c (firstn n s) + count c (skipn n s))%nat.
Proof. rewrite <- count_app, firstn_skipn. reflexivity. Qed.

Lemma count_skipn_le (c : ascii) (n : nat) (s : str) :
  (count c (skipn n s) <= count c s)%nat.
Proof. rewrite (count_firstn_skipn c n s). lia. Qed.

Lemma count_filter_le (c : ascii) (f : ascii -> bool) (s : str) :
  (count c (filter f s) <= count c s)%nat.
Proof.
  induction s as [|x s IH]; [simpl; lia|].
  simpl. destruct (f x); rewrite ?count_cons; lia.
Qed.

Lemma count_lstrip_le (c : ascii) (f : ascii -> bool) (s : str) :
  (count c (lstrip f s) <= count c s)%nat.
Proof.
  induction s as [|x s IH]; [simpl; lia|].
  simpl. destruct (f x); [rewrite count_cons; lia | lia].
Qed.

Lemma count_remove_unsafe_le (c : ascii) (s : str) :
  (count c (UrlParse.remove_unsafe s) <= count c s)%nat.
Proof.
  unfold UrlParse.remove_unsafe, remove_char.
  eapply Nat.le_trans; [apply count_filter_le|].
  eapply Nat.le_trans; [apply count_filter_le|].
  apply count_filter_le.
Qed.

Lemma count_split_scheme_le (c : ascii) (url : str) :
  (count c (snd (split_scheme url)) <= count c url)%nat.
Proof.
  unfold split_scheme.
  destruct (find ":" url) as [[|i']|]; destruct url as [|c0 u];
    try (cbn [snd]; lia).
  destruct (_ && _ && _)%bool; cbn [snd]; [apply count_skipn_le | lia].
Qed.

Lemma after_scheme_netloc (chk : str -> bool) (sch url : str)
      (r : str * str * str * str * str) :
  urlsplit_after_scheme chk sch url = Some r ->
  snd (fst (fst (fst r))) <> [] ->
  str_eqb (firstn 2 url) (lit "//") = true.
Proof.
  unfold urlsplit_after_scheme.
  destruct (str_eqb (firstn 2 url) (lit "//")); [reflexivity|].
  cbn [char_in existsb andb orb negb].
  destruct (UrlParse.split_once "#" url) as [[u1 f1]|];
    [destruct (UrlParse.split_once "?" u1) as [[u2 q2]|]
    |destruct (UrlParse.split_once "?" url) as [[u2 q2]|]];
    intros E; inversion E; subst; cbn [fst snd]; congruence.
Qed.

Lemma urlparse_netloc (chk : str -> bool) (s : str)
      (p : UrlParse.ParseResult) :
  UrlParse.urlparse chk s = Some p ->
  exists r, UrlParse.urlsplit chk s = Some r
            /\ snd (fst (fst (fst r))) = UrlParse.netloc p.
Proof.
  unfold UrlParse.urlparse.
  destruct (UrlParse.urlsplit chk s) as [[[[[sch nl] u] q] f]|];
    [|discriminate].
  intros E. eexists. split; [reflexivity|]. cbn [fst snd].
  destruct (existsb _ _ && _)%bool;
    [destruct (UrlParse._splitparams u)|]; inversion E; reflexivity.
Qed.

Lemma double_slash_count (url : str) :
  str_eqb (firstn 2 url) (lit "//") = true -> (2 <= count "/" url)%nat.
Proof.
  intros E. apply str_eqb_eq in E.
  rewrite (count_firstn_skipn "/" 2 url), E. simpl. lia.
Qed.

(** X16.  A string with fewer than two slashes, such as a bare domain
    name or a [mailto:] address, has no host component and gets the all-zero
    default vector. *)
Theorem fewer_than_two_slashes_default (chk : str -> bool) (s : str) :
  (count "/" s < 2)%nat ->
  extract_features chk (PyStr s) = _get_default_features.
Proof.
  intros Hc. destruct s as [|c s]; [reflexivity|].
  unfold extract_features.
  destruct (UrlParse.urlparse chk (c :: s)) as [p|] eqn:Ep; [|reflexivity].
  destruct (UrlParse.netloc p) as [|n0 nl] eqn:En; [reflexivity|].
  exfalso.
  destruct (urlparse_netloc chk _ p Ep) as [r [Hr Hn]].
  rewrite urlsplit_steps in Hr. cbv zeta in Hr.
  apply after_scheme_netloc in Hr; [|rewrite Hn, En; discriminate].
  apply double_slash_count in Hr.
  pose proof (count_split_scheme_le "/"
                (UrlParse.remove_unsafe
                   (lstrip UrlParse.c0_control_or_space (c :: s)))).
  pose proof (count_remove_unsafe_le "/"
                (lstrip UrlParse.c0_control_or_space (c :: s))).
  pose proof (count_lstrip_le "/" UrlParse.c0_control_or_space (c :: s)).
  lia.
Qed.

Lemma fewer_than_two_slashes_default_witness :
  extract_features accept_brackets (PyStr (lit "www.paypal-verify.tk/login"))
  = _get_default_features.
Proof.
  apply fewer_than_two_slashes_default. vm_compute. lia.
Defined.
